(** * Pitch-deck generator: a shallow embedding of [generate.py]

    The script reads a per-client JSON configuration and an HTML template,
    flattens the configuration to dot-notation keys, replaces every
    [{{key}}] token by the key's value, warns about tokens that are left,
    writes the page and copies an audio directory.

    Text is modelled as [string], read as the UTF-8 bytes of the Python
    string.  Searching for a substring, replacing it and comparing two
    strings give the same answer on UTF-8 bytes as on code points, and the
    characters the script looks for (braces, the dot) are ASCII. *)

From Stdlib Require Import Strings.String Strings.Ascii Lists.List ZArith.ZArith
  Arith.PeanoNat Bool.Bool micromega.Lia Numbers.DecimalString
  Sorting.Sorted Sorting.Permutation.
Import ListNotations.

Local Open Scope list_scope.
Local Open Scope string_scope.

(* ################################################################# *)
(** * Part I: the model *)

(* ================================================================= *)
(** ** Strings *)

Module Str.

(** [contains c s]: the character [c] occurs in [s]. *)
Fixpoint contains (c : ascii) (s : string) : bool :=
  match s with
  | "" => false
  | String x s' => Ascii.eqb x c || contains c s'
  end.

(** Python's [s.startswith(p)]. *)
Fixpoint startswith (p s : string) : bool :=
  match p with
  | "" => true
  | String x p' =>
      match s with
      | "" => false
      | String y s' => Ascii.eqb x y && startswith p' s'
      end
  end.

(** [s[n:]] and [s[:n]]. *)
Fixpoint drop (n : nat) (s : string) : string :=
  match n, s with
  | S n', String _ s' => drop n' s'
  | _, _ => s
  end.

Fixpoint take (n : nat) (s : string) : string :=
  match n, s with
  | S n', String c s' => String c (take n' s')
  | _, _ => ""
  end.

(** Python's [s.endswith(p)]. *)
Definition endswith (p s : string) : bool :=
  let n := String.length s in
  let m := String.length p in
  Nat.leb m n && String.eqb (drop (n - m) s) p.

Definition newline : string := String (ascii_of_nat 10) "".

Definition of_nat (n : nat) : string := NilZero.string_of_uint (Nat.to_uint n).

End Str.

(* ================================================================= *)
(** ** JSON values and Python's [str]

    [json.load] yields [None], [bool], [int], [float], [str], [list] and
    [dict] objects.  A float is carried by its [repr] text, which is what
    [str] returns for it; float arithmetic plays no part in the script. *)

#[warnings="-register-all"]
Inductive json : Type :=
| JNull
| JBool (b : bool)
| JInt (z : Z)
| JFloat (repr : string)
| JStr (s : string)
| JList (l : list json)
| JDict (d : list (string * json)).

(** [isinstance(value, dict)] *)
Definition is_dict (v : json) : bool :=
  match v with JDict _ => true | _ => false end.

Module PyStr.

Definition backslash : ascii := ascii_of_nat 92.
Definition dquote : ascii := ascii_of_nat 34.
Definition squote : ascii := ascii_of_nat 39.

Definition hex_digit (n : N) : ascii :=
  if N.ltb n 10 then ascii_of_N (48 + n) else ascii_of_N (87 + n).

(** [n] in [width] lower-case hexadecimal digits. *)
Fixpoint hex (width : nat) (n : N) : string :=
  match width with
  | O => ""
  | S w => hex w (n / 16) ++ String (hex_digit (n mod 16)) ""
  end.

(** The code points from U+0080 up that [str.isprintable] rejects, as
    inclusive ranges: the categories Other and Separator of the Unicode
    database of CPython 3.11 (Unicode 14.0.0). *)
Definition not_printable_ranges : list (N * N) :=
  [(128, 160); (173, 173); (888, 889); (896, 899); (907, 907); (909, 909);
   (930, 930); (1328, 1328); (1367, 1368); (1419, 1420); (1424, 1424);
   (1480, 1487); (1515, 1518); (1525, 1541); (1564, 1564); (1757, 1757);
   (1806, 1807); (1867, 1868); (1970, 1983); (2043, 2044); (2094, 2095);
   (2111, 2111); (2140, 2141); (2143, 2143); (2155, 2159); (2191, 2199);
   (2274, 2274); (2436, 2436); (2445, 2446); (2449, 2450); (2473, 2473);
   (2481, 2481); (2483, 2485); (2490, 2491); (2501, 2502); (2505, 2506);
   (2511, 2518); (2520, 2523); (2526, 2526); (2532, 2533); (2559, 2560);
   (2564, 2564); (2571, 2574); (2577, 2578); (2601, 2601); (2609, 2609);
   (2612, 2612); (2615, 2615); (2618, 2619); (2621, 2621); (2627, 2630);
   (2633, 2634); (2638, 2640); (2642, 2648); (2653, 2653); (2655, 2661);
   (2679, 2688); (2692, 2692); (2702, 2702); (2706, 2706); (2729, 2729);
   (2737, 2737); (2740, 2740); (2746, 2747); (2758, 2758); (2762, 2762);
   (2766, 2767); (2769, 2783); (2788, 2789); (2802, 2808); (2816, 2816);
   (2820, 2820); (2829, 2830); (2833, 2834); (2857, 2857); (2865, 2865);
   (2868, 2868); (2874, 2875); (2885, 2886); (2889, 2890); (2894, 2900);
   (2904, 2907); (2910, 2910); (2916, 2917); (2936, 2945); (2948, 2948);
   (2955, 2957); (2961, 2961); (2966, 2968); (2971, 2971); (2973, 2973);
   (2976, 2978); (2981, 2983); (2987, 2989); (3002, 3005); (3011, 3013);
   (3017, 3017); (3022, 3023); (3025, 3030); (3032, 3045); (3067, 3071);
   (3085, 3085); (3089, 3089); (3113, 3113); (3130, 3131); (3141, 3141);
   (3145, 3145); (3150, 3156); (3159, 3159); (3163, 3164); (3166, 3167);
   (3172, 3173); (3184, 3190); (3213, 3213); (3217, 3217); (3241, 3241);
   (3252, 3252); (3258, 3259); (3269, 3269); (3273, 3273); (3278, 3284);
   (3287, 3292); (3295, 3295); (3300, 3301); (3312, 3312); (3315, 3327);
   (3341, 3341); (3345, 3345); (3397, 3397); (3401, 3401); (3408, 3411);
   (3428, 3429); (3456, 3456); (3460, 3460); (3479, 3481); (3506, 3506);
   (3516, 3516); (3518, 3519); (3527, 3529); (3531, 3534); (3541, 3541);
   (3543, 3543); (3552, 3557); (3568, 3569); (3573, 3584); (3643, 3646);
   (3676, 3712); (3715, 3715); (3717, 3717); (3723, 3723); (3748, 3748);
   (3750, 3750); (3774, 3775); (3781, 3781); (3783, 3783); (3790, 3791);
   (3802, 3803); (3808, 3839); (3912, 3912); (3949, 3952); (3992, 3992);
   (4029, 4029); (4045, 4045); (4059, 4095); (4294, 4294); (4296, 4300);
   (4302, 4303); (4681, 4681); (4686, 4687); (4695, 4695); (4697, 4697);
   (4702, 4703); (4745, 4745); (4750, 4751); (4785, 4785); (4790, 4791);
   (4799, 4799); (4801, 4801); (4806, 4807); (4823, 4823); (4881, 4881);
   (4886, 4887); (4955, 4956); (4989, 4991); (5018, 5023); (5110, 5111);
   (5118, 5119); (5760, 5760); (5789, 5791); (5881, 5887); (5910, 5918);
   (5943, 5951); (5972, 5983); (5997, 5997); (6001, 6001); (6004, 6015);
   (6110, 6111); (6122, 6127); (6138, 6143); (6158, 6158); (6170, 6175);
   (6265, 6271); (6315, 6319); (6390, 6399); (6431, 6431); (6444, 6447);
   (6460, 6463); (6465, 6467); (6510, 6511); (6517, 6527); (6572, 6575);
   (6602, 6607); (6619, 6621); (6684, 6685); (6751, 6751); (6781, 6782);
   (6794, 6799); (6810, 6815); (6830, 6831); (6863, 6911); (6989, 6991);
   (7039, 7039); (7156, 7163); (7224, 7226); (7242, 7244); (7305, 7311);
   (7355, 7356); (7368, 7375); (7419, 7423); (7958, 7959); (7966, 7967);
   (8006, 8007); (8014, 8015); (8024, 8024); (8026, 8026); (8028, 8028);
   (8030, 8030); (8062, 8063); (8117, 8117); (8133, 8133); (8148, 8149);
   (8156, 8156); (8176, 8177); (8181, 8181); (8191, 8207); (8232, 8239);
   (8287, 8303); (8306, 8307); (8335, 8335); (8349, 8351); (8385, 8399);
   (8433, 8447); (8588, 8591); (9255, 9279); (9291, 9311); (11124, 11125);
   (11158, 11158); (11508, 11512); (11558, 11558); (11560, 11564);
   (11566, 11567); (11624, 11630); (11633, 11646); (11671, 11679);
   (11687, 11687); (11695, 11695); (11703, 11703); (11711, 11711);
   (11719, 11719); (11727, 11727); (11735, 11735); (11743, 11743);
   (11870, 11903); (11930, 11930); (12020, 12031); (12246, 12271);
   (12284, 12288); (12352, 12352); (12439, 12440); (12544, 12548);
   (12592, 12592); (12687, 12687); (12772, 12783); (12831, 12831);
   (42125, 42127); (42183, 42191); (42540, 42559); (42744, 42751);
   (42955, 42959); (42962, 42962); (42964, 42964); (42970, 42993);
   (43053, 43055); (43066, 43071); (43128, 43135); (43206, 43213);
   (43226, 43231); (43348, 43358); (43389, 43391); (43470, 43470);
   (43482, 43485); (43519, 43519); (43575, 43583); (43598, 43599);
   (43610, 43611); (43715, 43738); (43767, 43776); (43783, 43784);
   (43791, 43792); (43799, 43807); (43815, 43815); (43823, 43823);
   (43884, 43887); (44014, 44015); (44026, 44031); (55204, 55215);
   (55239, 55242); (55292, 63743); (64110, 64111); (64218, 64255);
   (64263, 64274); (64280, 64284); (64311, 64311); (64317, 64317);
   (64319, 64319); (64322, 64322); (64325, 64325); (64451, 64466);
   (64912, 64913); (64968, 64974); (64976, 65007); (65050, 65055);
   (65107, 65107); (65127, 65127); (65132, 65135); (65141, 65141);
   (65277, 65280); (65471, 65473); (65480, 65481); (65488, 65489);
   (65496, 65497); (65501, 65503); (65511, 65511); (65519, 65531);
   (65534, 65535); (65548, 65548); (65575, 65575); (65595, 65595);
   (65598, 65598); (65614, 65615); (65630, 65663); (65787, 65791);
   (65795, 65798); (65844, 65846); (65935, 65935); (65949, 65951);
   (65953, 65999); (66046, 66175); (66205, 66207); (66257, 66271);
   (66300, 66303); (66340, 66348); (66379, 66383); (66427, 66431);
   (66462, 66462); (66500, 66503); (66518, 66559); (66718, 66719);
   (66730, 66735); (66772, 66775); (66812, 66815); (66856, 66863);
   (66916, 66926); (66939, 66939); (66955, 66955); (66963, 66963);
   (66966, 66966); (66978, 66978); (66994, 66994); (67002, 67002);
   (67005, 67071); (67383, 67391); (67414, 67423); (67432, 67455);
   (67462, 67462); (67505, 67505); (67515, 67583); (67590, 67591);
   (67593, 67593); (67638, 67638); (67641, 67643); (67645, 67646);
   (67670, 67670); (67743, 67750); (67760, 67807); (67827, 67827);
   (67830, 67834); (67868, 67870); (67898, 67902); (67904, 67967);
   (68024, 68027); (68048, 68049); (68100, 68100); (68103, 68107);
   (68116, 68116); (68120, 68120); (68150, 68151); (68155, 68158);
   (68169, 68175); (68185, 68191); (68256, 68287); (68327, 68330);
   (68343, 68351); (68406, 68408); (68438, 68439); (68467, 68471);
   (68498, 68504); (68509, 68520); (68528, 68607); (68681, 68735);
   (68787, 68799); (68851, 68857); (68904, 68911); (68922, 69215);
   (69247, 69247); (69290, 69290); (69294, 69295); (69298, 69375);
   (69416, 69423); (69466, 69487); (69514, 69551); (69580, 69599);
   (69623, 69631); (69710, 69713); (69750, 69758); (69821, 69821);
   (69827, 69839); (69865, 69871); (69882, 69887); (69941, 69941);
   (69960, 69967); (70007, 70015); (70112, 70112); (70133, 70143);
   (70162, 70162); (70207, 70271); (70279, 70279); (70281, 70281);
   (70286, 70286); (70302, 70302); (70314, 70319); (70379, 70383);
   (70394, 70399); (70404, 70404); (70413, 70414); (70417, 70418);
   (70441, 70441); (70449, 70449); (70452, 70452); (70458, 70458);
   (70469, 70470); (70473, 70474); (70478, 70479); (70481, 70486);
   (70488, 70492); (70500, 70501); (70509, 70511); (70517, 70655);
   (70748, 70748); (70754, 70783); (70856, 70863); (70874, 71039);
   (71094, 71095); (71134, 71167); (71237, 71247); (71258, 71263);
   (71277, 71295); (71354, 71359); (71370, 71423); (71451, 71452);
   (71468, 71471); (71495, 71679); (71740, 71839); (71923, 71934);
   (71943, 71944); (71946, 71947); (71956, 71956); (71959, 71959);
   (71990, 71990); (71993, 71994); (72007, 72015); (72026, 72095);
   (72104, 72105); (72152, 72153); (72165, 72191); (72264, 72271);
   (72355, 72367); (72441, 72703); (72713, 72713); (72759, 72759);
   (72774, 72783); (72813, 72815); (72848, 72849); (72872, 72872);
   (72887, 72959); (72967, 72967); (72970, 72970); (73015, 73017);
   (73019, 73019); (73022, 73022); (73032, 73039); (73050, 73055);
   (73062, 73062); (73065, 73065); (73103, 73103); (73106, 73106);
   (73113, 73119); (73130, 73439); (73465, 73647); (73649, 73663);
   (73714, 73726); (74650, 74751); (74863, 74863); (74869, 74879);
   (75076, 77711); (77811, 77823); (78895, 82943); (83527, 92159);
   (92729, 92735); (92767, 92767); (92778, 92781); (92863, 92863);
   (92874, 92879); (92910, 92911); (92918, 92927); (92998, 93007);
   (93018, 93018); (93026, 93026); (93048, 93052); (93072, 93759);
   (93851, 93951); (94027, 94030); (94088, 94094); (94112, 94175);
   (94181, 94191); (94194, 94207); (100344, 100351); (101590, 101631);
   (101641, 110575); (110580, 110580); (110588, 110588); (110591, 110591);
   (110883, 110927); (110931, 110947); (110952, 110959); (111356, 113663);
   (113771, 113775); (113789, 113791); (113801, 113807); (113818, 113819);
   (113824, 118527); (118574, 118575); (118599, 118607); (118724, 118783);
   (119030, 119039); (119079, 119080); (119155, 119162); (119275, 119295);
   (119366, 119519); (119540, 119551); (119639, 119647); (119673, 119807);
   (119893, 119893); (119965, 119965); (119968, 119969); (119971, 119972);
   (119975, 119976); (119981, 119981); (119994, 119994); (119996, 119996);
   (120004, 120004); (120070, 120070); (120075, 120076); (120085, 120085);
   (120093, 120093); (120122, 120122); (120127, 120127); (120133, 120133);
   (120135, 120137); (120145, 120145); (120486, 120487); (120780, 120781);
   (121484, 121498); (121504, 121504); (121520, 122623); (122655, 122879);
   (122887, 122887); (122905, 122906); (122914, 122914); (122917, 122917);
   (122923, 123135); (123181, 123183); (123198, 123199); (123210, 123213);
   (123216, 123535); (123567, 123583); (123642, 123646); (123648, 124895);
   (124903, 124903); (124908, 124908); (124911, 124911); (124927, 124927);
   (125125, 125126); (125143, 125183); (125260, 125263); (125274, 125277);
   (125280, 126064); (126133, 126208); (126270, 126463); (126468, 126468);
   (126496, 126496); (126499, 126499); (126501, 126502); (126504, 126504);
   (126515, 126515); (126520, 126520); (126522, 126522); (126524, 126529);
   (126531, 126534); (126536, 126536); (126538, 126538); (126540, 126540);
   (126544, 126544); (126547, 126547); (126549, 126550); (126552, 126552);
   (126554, 126554); (126556, 126556); (126558, 126558); (126560, 126560);
   (126563, 126563); (126565, 126566); (126571, 126571); (126579, 126579);
   (126584, 126584); (126589, 126589); (126591, 126591); (126602, 126602);
   (126620, 126624); (126628, 126628); (126634, 126634); (126652, 126703);
   (126706, 126975); (127020, 127023); (127124, 127135); (127151, 127152);
   (127168, 127168); (127184, 127184); (127222, 127231); (127406, 127461);
   (127491, 127503); (127548, 127551); (127561, 127567); (127570, 127583);
   (127590, 127743); (128728, 128732); (128749, 128751); (128765, 128767);
   (128884, 128895); (128985, 128991); (129004, 129007); (129009, 129023);
   (129036, 129039); (129096, 129103); (129114, 129119); (129160, 129167);
   (129198, 129199); (129202, 129279); (129620, 129631); (129646, 129647);
   (129653, 129655); (129661, 129663); (129671, 129679); (129709, 129711);
   (129723, 129727); (129734, 129743); (129754, 129759); (129768, 129775);
   (129783, 129791); (129939, 129939); (129995, 130031); (130042, 131071);
   (173792, 173823); (177977, 177983); (178206, 178207); (183970, 183983);
   (191457, 194559); (195102, 196607); (201547, 917759); (918000, 1114111)]%N.

Definition printable (cp : N) : bool :=
  negb (existsb (fun r => N.leb (fst r) cp && N.leb cp (snd r)) not_printable_ranges).

(** The characters of a text with their code points.  A Python [str] is a
    sequence of code points; the model holds its UTF-8 bytes, a lone
    surrogate (which [json.loads] can produce) in the same three-byte
    form.  Bytes that are no such encoding do not arise. *)
Fixpoint code_points (s : string) : list (N * string) :=
  match s with
  | "" => []
  | String b0 s1 =>
      let n0 := N_of_ascii b0 in
      let low := fun b => N.modulo (N_of_ascii b) 64 in
      if N.ltb n0 192 then (n0, String b0 "") :: code_points s1
      else
        match s1 with
        | "" => [(n0, String b0 "")]
        | String b1 s2 =>
            if N.ltb n0 224 then
              ((n0 mod 32) * 64 + low b1, String b0 (String b1 "")) :: code_points s2
            else
              match s2 with
              | "" => (n0, String b0 "") :: code_points s1
              | String b2 s3 =>
                  if N.ltb n0 240 then
                    (((n0 mod 16) * 64 + low b1) * 64 + low b2,
                     String b0 (String b1 (String b2 "")))
                    :: code_points s3
                  else
                    match s3 with
                    | "" => (n0, String b0 "") :: code_points s1
                    | String b3 s4 =>
                        ((((n0 mod 8) * 64 + low b1) * 64 + low b2) * 64 + low b3,
                         String b0 (String b1 (String b2 (String b3 ""))))
                        :: code_points s4
                    end
              end
        end
  end%N.

(** One character of [repr(s)] for a [str]: the quote in use and the
    backslash are escaped, tab, newline and carriage return have their
    letter, other ASCII control characters are written [\xNN], and a
    character from U+0080 up that is not printable is written [\xNN],
    [\uNNNN] or [\UNNNNNNNN] by the size of its code point. *)
Definition repr_char (quote : ascii) (ch : N * string) : string :=
  let cp := fst ch in
  if N.eqb cp (N_of_ascii quote) || N.eqb cp 92 then String backslash (snd ch)
  else if N.eqb cp 9 then String backslash "t"
  else if N.eqb cp 10 then String backslash "n"
  else if N.eqb cp 13 then String backslash "r"
  else if N.ltb cp 32 || N.eqb cp 127 then String backslash (String "x" (hex 2 cp))
  else if N.ltb cp 127 then snd ch
  else if printable cp then snd ch
  else if N.leb cp 255 then String backslash (String "x" (hex 2 cp))
  else if N.leb cp 65535 then String backslash (String "u" (hex 4 cp))
  else String backslash (String "U" (hex 8 cp)).

Definition repr_chars (quote : ascii) (s : string) : string :=
  String.concat "" (List.map (repr_char quote) (code_points s)).

(** [repr] of a [str]: single quotes, unless the text has a single quote
    and no double quote. *)
Definition repr_str (s : string) : string :=
  let quote :=
    if Str.contains squote s && negb (Str.contains dquote s)
    then dquote else squote in
  String quote (repr_chars quote s ++ String quote "").

Definition str_int (z : Z) : string := NilZero.string_of_int (Z.to_int z).

(** [repr] of any value; inside a list or a dict Python uses [repr] for
    the elements. *)
Fixpoint repr (v : json) : string :=
  match v with
  | JNull => "None"
  | JBool true => "True"
  | JBool false => "False"
  | JInt z => str_int z
  | JFloat r => r
  | JStr s => repr_str s
  | JList l => "[" ++ String.concat ", " (List.map repr l) ++ "]"
  | JDict d =>
      "{" ++ String.concat ", "
               (List.map (fun kv => repr_str (fst kv) ++ ": " ++ repr (snd kv)) d)
          ++ "}"
  end.

(** [str(v)]: the text itself for a [str], [repr(v)] otherwise. *)
Definition str (v : json) : string :=
  match v with
  | JStr s => s
  | _ => repr v
  end.

End PyStr.

(* ================================================================= *)
(** ** Python dictionaries

    A [dict] keeps its keys in insertion order, and the substitution loop
    of [generate] walks the flattened dictionary in that order, so a
    dictionary is an association list with pairwise distinct keys.
    Assigning to a key that is present keeps its place. *)

Definition dict (V : Type) : Type := list (string * V).

Module Dict.
Section Ops.
Context {V : Type}.

(** [d.get(k)] *)
Fixpoint get (k : string) (d : dict V) : option V :=
  match d with
  | [] => None
  | (k', v) :: d' => if String.eqb k' k then Some v else get k d'
  end.

(** [d[k] = v] *)
Fixpoint set (k : string) (v : V) (d : dict V) : dict V :=
  match d with
  | [] => [(k, v)]
  | (k', v') :: d' =>
      if String.eqb k' k then (k', v) :: d' else (k', v') :: set k v d'
  end.

(** [d.update(other)] *)
Definition update (d other : dict V) : dict V :=
  fold_left (fun acc kv => set (fst kv) (snd kv) acc) other d.

Definition keys (d : dict V) : list string := List.map fst d.

End Ops.
End Dict.

(* ================================================================= *)
(** ** [flatten] *)

(** [full_key = f"{prefix}.{key}" if prefix else key] *)
Definition full_key (prefix key : string) : string :=
  match prefix with
  | "" => key
  | _ => prefix ++ "." ++ key
  end.

(** [flatten(d, prefix)].  [d.items()] raises [AttributeError] when [d] is
    not a dict: that is [None].  The recursive call is only made on a value
    that is a dict. *)
Fixpoint flatten (d : json) (prefix : string) {struct d} : option (dict string) :=
  match d with
  | JDict items =>
      (fix loop (items : list (string * json)) (result : dict string)
         {struct items} : option (dict string) :=
         match items with
         | [] => Some result
         | (key, value) :: rest =>
             let full_key := full_key prefix key in
             if is_dict value then
               match flatten value full_key with
               | Some sub => loop rest (Dict.update result sub)
               | None => None
               end
             else loop rest (Dict.set full_key (PyStr.str value) result)
         end) items []
  | _ => None
  end.

(* ================================================================= *)
(** ** Documents, paths and leaves

    A configuration document is a [JDict]; a leaf is a value that is not a
    dict; a root-to-leaf path is the list of keys from the root down to a
    leaf.  [leaves d] lists the paths with their leaves in document order. *)

Fixpoint leaves (d : json) : list (list string * json) :=
  match d with
  | JDict items =>
      flat_map
        (fun kv =>
           match kv with
           | (key, value) =>
               if is_dict value
               then List.map (fun pl => (key :: fst pl, snd pl)) (leaves value)
               else [([key], value)]
           end)
        items
  | _ => []
  end.

(** The key that [flatten] composes along a path, starting from [prefix]:
    one [full_key] step per nesting level. *)
Definition path_key (prefix : string) (path : list string) : string :=
  fold_left full_key path prefix.

(** The dotted path in the words of the specification: the keys of the
    path joined with a dot. *)
Definition dotted (path : list string) : string := String.concat "." path.

Fixpoint distinct (l : list string) : bool :=
  match l with
  | [] => true
  | x :: l' => negb (existsb (String.eqb x) l') && distinct l'
  end.

(** A value that [json.load] can return: the keys of every dict are
    pairwise distinct. *)
Fixpoint wf (v : json) : bool :=
  match v with
  | JList l => forallb wf l
  | JDict d => distinct (List.map fst d) && forallb (fun kv => wf (snd kv)) d
  | _ => true
  end.

(** A key is plain when it is not empty and has no dot. *)
Definition plain_key (k : string) : bool :=
  negb (String.eqb k "") && negb (Str.contains "."%char k).

(** Every key on every root-to-leaf path of the document is plain. *)
Fixpoint plain_keys (d : json) : bool :=
  match d with
  | JDict items => forallb (fun kv => plain_key (fst kv) && plain_keys (snd kv)) items
  | _ => true
  end.

(* ================================================================= *)
(** ** Replacing placeholders *)

(** [s.replace(old, new)] for a non-empty [old]: the text is scanned from
    the left, every occurrence found is replaced and the scan resumes after
    it.  [skip] counts the characters of the occurrence still to pass. *)
Fixpoint replace_from (old new : string) (skip : nat) (s : string) : string :=
  match s with
  | "" => ""
  | String c s' =>
      match skip with
      | S n => replace_from old new n s'
      | O =>
          if Str.startswith old s
          then new ++ replace_from old new (String.length old - 1) s'
          else String c (replace_from old new 0 s')
      end
  end.

(** With an empty [old], Python puts [new] before every character and at
    the end. *)
Fixpoint interleave (new s : string) : string :=
  match s with
  | "" => new
  | String c s' => new ++ String c (interleave new s')
  end.

Definition replace (old new s : string) : string :=
  match old with
  | "" => interleave new s
  | _ => replace_from old new 0 s
  end.

(** The token of a key: ["{{" + key + "}}"]. *)
Definition token (key : string) : string := "{{" ++ key ++ "}}".

(** The replacement loop of [generate]:
    [for key, value in flat.items(): html = html.replace("{{" + key + "}}", value)] *)
Definition substitute (html : string) (flat : dict string) : string :=
  fold_left (fun html kv => replace (token (fst kv)) (snd kv) html) flat html.

(* ================================================================= *)
(** ** The scan for placeholders that are left *)

Definition close_brace : ascii := "}"%char.
Definition open_brace : ascii := "{"%char.

(** The longest run of characters other than a closing brace at the start
    of [s]: what the greedy [[^}]+] takes. *)
Fixpoint span_not_close (s : string) : nat :=
  match s with
  | "" => 0
  | String c s' => if Ascii.eqb c close_brace then 0 else S (span_not_close s')
  end.

(** The match of [\{\{[^}]+\}\}] at the start of [s], if there is one.
    After the greedy run the next character is a closing brace or the end
    of the text, so giving characters back never helps: the pattern matches
    exactly when the run is not empty and two closing braces follow it. *)
Definition match_token (s : string) : option string :=
  if Str.startswith "{{" s then
    let r := Str.drop 2 s in
    let n := span_not_close r in
    if Nat.ltb 0 n && Str.startswith "}}" (Str.drop n r)
    then Some ("{{" ++ Str.take n r ++ "}}")
    else None
  else None.

(** [re.findall(r"\{\{[^}]+\}\}", s)]: the matches from left to right, each
    search resuming where the last match ended. *)
Fixpoint findall_from (skip : nat) (s : string) : list string :=
  match s with
  | "" => []
  | String c s' =>
      match skip with
      | S n => findall_from n s'
      | O =>
          match match_token s with
          | Some t => t :: findall_from (String.length t - 1) s'
          | None => findall_from 0 s'
          end
      end
  end.

Definition findall (s : string) : list string := findall_from 0 s.

(** [set(l)], listed in one of its iteration orders; the script only sorts
    it and takes its length, and neither depends on the order. *)
Definition py_set (l : list string) : list string := nodup string_dec l.

(** [sorted(l)] by insertion; on pairwise distinct strings every sorting
    algorithm returns this list. *)
Fixpoint insert_sorted (x : string) (l : list string) : list string :=
  match l with
  | [] => [x]
  | y :: l' => if String.leb x y then x :: l else y :: insert_sorted x l'
  end.

Fixpoint sorted (l : list string) : list string :=
  match l with
  | [] => []
  | x :: l' => insert_sorted x (sorted l')
  end.

(* ================================================================= *)
(** ** The file system and the console

    The file system maps path names to nodes.  Path names are compared as
    written, and a directory node carries the entries that are copied,
    removed and listed with it.  Creating a file or a directory looks at
    the directories above its path (see [ancestors] below).  The console is
    the list of the texts printed so far, one per call of [print]; it takes
    every text. *)

#[warnings="-register-all"]
Inductive node : Type :=
| File (content : string)
| Dir (entries : list (string * node)).

Record world : Type := World {
  fs : string -> option node;
  stdout : list string
}.

Inductive exn : Type :=
| FileNotFoundError
| IsADirectoryError
| NotADirectoryError
| FileExistsError
| JSONDecodeError
| AttributeError
| UnicodeDecodeError
| UnicodeEncodeError.

(** How a run ends before its last statement: [sys.exit(code)] or an
    exception that nothing catches. *)
Inductive stop : Type :=
| SysExit (code : Z)
| Raised (e : exn).

Inductive result (A : Type) : Type :=
| Ok (a : A)
| Stop (s : stop).

Arguments Ok {A} a.
Arguments Stop {A} s.

Definition io (A : Type) : Type := world -> result A * world.

Definition ret {A : Type} (a : A) : io A := fun w => (Ok a, w).

Definition bind {A B : Type} (c : io A) (k : A -> io B) : io B :=
  fun w =>
    match c w with
    | (Ok a, w') => k a w'
    | (Stop s, w') => (Stop s, w')
    end.

Declare Scope io_scope.
Delimit Scope io_scope with io.
Notation "x <- c ;; k" := (bind c (fun x => k))
  (at level 61, c at next level, right associativity) : io_scope.
Notation "c ;; k" := (bind c (fun _ => k))
  (at level 61, right associativity) : io_scope.

Definition raise {A : Type} (e : exn) : io A := fun w => (Stop (Raised e), w).

(** [sys.exit(code)] *)
Definition sys_exit {A : Type} (code : Z) : io A := fun w => (Stop (SysExit code), w).

(** [print(text)] *)
Definition print (text : string) : io unit :=
  fun w => (Ok tt, World (fs w) (stdout w ++ [text])).

Definition fs_set (path : string) (n : option node) (f : string -> option node)
  : string -> option node :=
  fun q => if String.eqb q path then n else f q.

Definition put (path : string) (n : option node) : io unit :=
  fun w => (Ok tt, World (fs_set path n (fs w)) (stdout w)).

Definition stat (path : string) : io (option node) := fun w => (Ok (fs w path), w).

(** [os.path.exists(path)] *)
Definition path_exists (path : string) : io bool :=
  (n <- stat path ;;
   ret (match n with Some _ => true | None => false end))%io.

(** *** Text files

    A file holds bytes.  Reading it as text decodes them as UTF-8, which
    fails on bytes that are no well-formed UTF-8 (a lone surrogate in its
    three-byte form included), and turns every line end into a line feed;
    writing text encodes it, which fails on a lone surrogate. *)

(** Well-formed UTF-8, as the strict codec of Python accepts it. *)
Fixpoint utf8_valid (s : string) : bool :=
  match s with
  | "" => true
  | String b0 s1 =>
      let n0 := N_of_ascii b0 in
      let within := fun b lo hi => N.leb lo (N_of_ascii b) && N.leb (N_of_ascii b) hi in
      if N.ltb n0 128 then utf8_valid s1
      else
        match s1 with
        | "" => false
        | String b1 s2 =>
            if N.leb 194 n0 && N.leb n0 223 then within b1 128 191 && utf8_valid s2
            else
              match s2 with
              | "" => false
              | String b2 s3 =>
                  if N.eqb n0 224 then
                    within b1 160 191 && within b2 128 191 && utf8_valid s3
                  else if (N.leb 225 n0 && N.leb n0 236) || (N.leb 238 n0 && N.leb n0 239) then
                    within b1 128 191 && within b2 128 191 && utf8_valid s3
                  else if N.eqb n0 237 then
                    within b1 128 159 && within b2 128 191 && utf8_valid s3
                  else
                    match s3 with
                    | "" => false
                    | String b3 s4 =>
                        if N.eqb n0 240 then
                          within b1 144 191 && within b2 128 191 && within b3 128 191
                          && utf8_valid s4
                        else if N.leb 241 n0 && N.leb n0 243 then
                          within b1 128 191 && within b2 128 191 && within b3 128 191
                          && utf8_valid s4
                        else if N.eqb n0 244 then
                          within b1 128 143 && within b2 128 191 && within b3 128 191
                          && utf8_valid s4
                        else false
                    end
              end
        end
  end%N.

Definition line_feed : ascii := ascii_of_nat 10.
Definition carriage_return : ascii := ascii_of_nat 13.

(** Universal newlines: a carriage return with or without a line feed
    after it becomes a line feed. *)
Fixpoint universal_newlines (s : string) : string :=
  match s with
  | "" => ""
  | String c s' =>
      if Ascii.eqb c carriage_return then
        match s' with
        | "" => String line_feed ""
        | String c' s'' =>
            if Ascii.eqb c' line_feed then String line_feed (universal_newlines s'')
            else String line_feed (universal_newlines s')
        end
      else String c (universal_newlines s')
  end.

(** The text of a file, [None] when the bytes do not decode. *)
Definition decode_text (content : string) : option string :=
  if utf8_valid content then Some (universal_newlines content) else None.

(** *** Directories above a path

    [ancestors path] lists the directories above [path], outermost first:
    the text before each slash of the path, the first character apart.
    The model takes path names as they are written; it is exact for names
    without an empty, [.] or [..] component.  Looking a path up relies on
    the file system having a directory above every node; creating a node
    checks the directories above it. *)
Fixpoint ancestors_from (seen rest : string) : list string :=
  match rest with
  | "" => []
  | String c rest' =>
      if Ascii.eqb c "/" && negb (String.eqb seen "")
      then seen :: ancestors_from (seen ++ String c "") rest'
      else ancestors_from (seen ++ String c "") rest'
  end.

Definition ancestors (path : string) : list string := ancestors_from "" path.

(** Every directory of the list must be there. *)
Fixpoint need_dirs (dirs : list string) : io unit :=
  match dirs with
  | [] => ret tt
  | d :: dirs' =>
      (n <- stat d ;;
       match n with
       | Some (Dir _) => need_dirs dirs'
       | Some (File _) => raise NotADirectoryError
       | None => raise FileNotFoundError
       end)%io
  end.

(** Every directory of the list is created unless it is there. *)
Fixpoint make_dirs (dirs : list string) : io unit :=
  match dirs with
  | [] => ret tt
  | d :: dirs' =>
      (n <- stat d ;;
       match n with
       | Some (Dir _) => make_dirs dirs'
       | Some (File _) => raise NotADirectoryError
       | None => put d (Some (Dir [])) ;; make_dirs dirs'
       end)%io
  end.

(** [with open(path, encoding="utf-8") as f: f.read()] *)
Definition read_text (path : string) : io string :=
  (n <- stat path ;;
   match n with
   | Some (File content) =>
       match decode_text content with
       | Some text => ret text
       | None => raise UnicodeDecodeError
       end
   | Some (Dir _) => raise IsADirectoryError
   | None => raise FileNotFoundError
   end)%io.

(** [with open(path, "w", encoding="utf-8") as f: f.write(text)]: opening
    needs the directories above the path and leaves an empty file; the
    text is then encoded and written (line feeds as they are, as on
    POSIX). *)
Definition write_text (path text : string) : io unit :=
  (need_dirs (ancestors path) ;;
   n <- stat path ;;
   match n with
   | Some (Dir _) => raise IsADirectoryError
   | _ =>
       put path (Some (File "")) ;;
       if utf8_valid text then put path (Some (File text))
       else raise UnicodeEncodeError
   end)%io.

(** [os.makedirs(path, exist_ok=True)]: the missing directories above the
    path are created, then the path itself. *)
Definition makedirs (path : string) : io unit :=
  (make_dirs (ancestors path) ;;
   n <- stat path ;;
   match n with
   | Some (Dir _) => ret tt
   | Some (File _) => raise FileExistsError
   | None => put path (Some (Dir []))
   end)%io.

(** [shutil.rmtree(path)] *)
Definition rmtree (path : string) : io unit :=
  (n <- stat path ;;
   match n with
   | Some (Dir _) => put path None
   | Some (File _) => raise NotADirectoryError
   | None => raise FileNotFoundError
   end)%io.

(** [shutil.copytree(src, dst)]: the source is listed, the destination is
    made with [os.makedirs(dst)], which refuses a destination that is
    there, and the entries are copied. *)
Definition copytree (src dst : string) : io unit :=
  (n <- stat src ;;
   match n with
   | Some (Dir entries) =>
       make_dirs (ancestors dst) ;;
       m <- stat dst ;;
       match m with
       | Some _ => raise FileExistsError
       | None => put dst (Some (Dir entries))
       end
   | Some (File _) => raise NotADirectoryError
   | None => raise FileNotFoundError
   end)%io.

(** [os.listdir(path)] *)
Definition listdir (path : string) : io (list string) :=
  (n <- stat path ;;
   match n with
   | Some (Dir entries) => ret (List.map fst entries)
   | Some (File _) => raise NotADirectoryError
   | None => raise FileNotFoundError
   end)%io.

(** [for x in l: body(x)] *)
Fixpoint for_each {A : Type} (l : list A) (body : A -> io unit) : io unit :=
  match l with
  | [] => ret tt
  | x :: l' => (body x ;; for_each l' body)%io
  end.

(* ================================================================= *)
(** ** [generate] *)

Section Generate.

(** [json.loads]: the parser of the JSON library on the decoded text,
    [None] when it raises [JSONDecodeError]. *)
Variable json_loads : string -> option json.

(** [with open(path, encoding="utf-8") as f: json.load(f)] *)
Definition json_load (path : string) : io json :=
  (text <- read_text path ;;
   match json_loads text with
   | Some v => ret v
   | None => raise JSONDecodeError
   end)%io.

Definition config_path (slug : string) : string := "configs/" ++ slug ++ ".json".
Definition template_path : string := "template/TEMPLATE.html".
Definition out_dir (slug : string) : string := "clients/" ++ slug.
Definition out_path (slug : string) : string := out_dir slug ++ "/index.html".
Definition audio_src (slug : string) : string := "configs/" ++ slug ++ "/audio".
Definition audio_dst (slug : string) : string := out_dir slug ++ "/audio".

(** The two lines printed when the configuration is missing, and the line
    printed when the template is missing. *)
Definition config_not_found (slug : string) : list string :=
  [Str.newline ++ "  Error: Config not found → " ++ config_path slug;
   "  Create it first (copy configs/old-mutual.json as a starting point)" ++ Str.newline].

Definition template_not_found : list string :=
  [Str.newline ++ "  Error: Template not found → " ++ template_path ++ Str.newline].

(** The warning about placeholders that are left: a header with their
    number, then one line per distinct token in sorted order. *)
Definition warning (remaining : list string) : list string :=
  (Str.newline ++ "  Warning: " ++ Str.of_nat (List.length (py_set remaining))
     ++ " unreplaced placeholder(s):")
  :: List.map (fun p => "    " ++ p) (sorted (py_set remaining)).

(** The body of [generate], one definition per block of the script. *)

(** [# Validate inputs] *)
Definition validate_inputs (slug : string) : io unit :=
  (have_config <- path_exists (config_path slug) ;;
   (if negb have_config then
      for_each (config_not_found slug) print ;;
      sys_exit 1
    else ret tt) ;;
   have_template <- path_exists template_path ;;
   (if negb have_template then
      for_each template_not_found print ;;
      sys_exit 1
    else ret tt))%io.

(** [# Load & flatten config] *)
Definition load_config (slug : string) : io (dict string) :=
  (config <- json_load (config_path slug) ;;
   match flatten config "" with
   | Some flat => ret flat
   | None => raise AttributeError
   end)%io.

(** [# Load template] *)
Definition load_template : io string := read_text template_path.

(** [# Warn about any missed placeholders] *)
Definition warn_missed (html : string) : io unit :=
  let remaining := findall html in
  match remaining with
  | [] => ret tt
  | _ => for_each (warning remaining) print
  end.

(** [# Write output] *)
Definition write_output (slug html : string) : io unit :=
  (makedirs (out_dir slug) ;;
   write_text (out_path slug) html)%io.

(** [# Copy audio files] *)
Definition copy_audio (slug : string) : io unit :=
  (have_audio <- path_exists (audio_src slug) ;;
   if have_audio then
     have_old <- path_exists (audio_dst slug) ;;
     (if have_old then rmtree (audio_dst slug) else ret tt) ;;
     copytree (audio_src slug) (audio_dst slug) ;;
     names <- listdir (audio_dst slug) ;;
     let mp3s := List.filter (Str.endswith ".mp3") names in
     print (Str.newline ++ "  Audio copied (" ++ Str.of_nat (List.length mp3s)
              ++ " file(s)) → " ++ audio_dst slug ++ "/")
   else
     print (Str.newline ++ "  Note: No audio folder found at " ++ audio_src slug ++ "/") ;;
     print "  Add audio files there and re-run to include them.")%io.

(** [# Done] *)
Definition report_done (slug : string) : io unit :=
  (print (Str.newline ++ "  ✓ Generated → " ++ out_path slug) ;;
   print (Str.newline ++ "  Local preview:") ;;
   print ("    http://localhost:8080/clients/" ++ slug ++ "/") ;;
   print (Str.newline ++ "  GitHub Pages (after git push):") ;;
   print ("    https://sebmcintosh.github.io/Pitch-Decks/clients/" ++ slug ++ "/"
            ++ Str.newline))%io.

Definition generate (slug : string) : io unit :=
  (validate_inputs slug ;;
   flat <- load_config slug ;;
   html <- load_template ;;
   let html := substitute html flat in
   warn_missed html ;;
   write_output slug html ;;
   copy_audio slug ;;
   report_done slug)%io.

End Generate.

(* ================================================================= *)
(** ** Templates as the specification reads them

    The specification describes the output page as the template with every
    placeholder whose key is in the mapping replaced by the key's value and
    the other tokens left as they are.  That reading needs the template cut
    into literal characters and tokens; [render] gives the text back. *)

Inductive item : Type :=
| Lit (c : ascii)
| Tok (key : string).

Definition template : Type := list item.

Fixpoint render (t : template) : string :=
  match t with
  | [] => ""
  | Lit c :: t' => String c (render t')
  | Tok key :: t' => token key ++ render t'
  end.

Fixpoint lits (s : string) : template :=
  match s with
  | "" => []
  | String c s' => Lit c :: lits s'
  end.

(** Every token whose key is in the mapping becomes the key's value, all at
    once; what a value brings in is literal text. *)
Fixpoint fill (flat : dict string) (t : template) : template :=
  match t with
  | [] => []
  | Lit c :: t' => Lit c :: fill flat t'
  | Tok key :: t' =>
      match Dict.get key flat with
      | Some value => (lits value ++ fill flat t')%list
      | None => Tok key :: fill flat t'
      end
  end.

Definition brace_free (s : string) : bool :=
  negb (Str.contains open_brace s) && negb (Str.contains close_brace s).

(** The mapping has no brace in a key or in a value. *)
Definition brace_free_dict (flat : dict string) : bool :=
  forallb (fun kv => brace_free (fst kv) && brace_free (snd kv)) flat.

(** A template is proper when its tokens have brace-free keys and a literal
    opening brace is never followed by another opening brace: in the text,
    two opening braces in a row always start a token. *)
Fixpoint proper (t : template) : bool :=
  match t with
  | [] => true
  | Lit c :: t' =>
      (if Ascii.eqb c open_brace then negb (Str.startswith "{" (render t')) else true)
      && proper t'
  | Tok key :: t' => brace_free key && proper t'
  end.

(** Cutting a text: two opening braces, a run without braces and two
    closing braces are a token, any other character is literal. *)
Fixpoint span_plain (s : string) : nat :=
  match s with
  | "" => 0
  | String c s' =>
      if Ascii.eqb c open_brace || Ascii.eqb c close_brace then 0
      else S (span_plain s')
  end.

Definition leading_token (s : string) : option string :=
  if Str.startswith "{{" s then
    let r := Str.drop 2 s in
    let n := span_plain r in
    if Str.startswith "}}" (Str.drop n r) then Some (Str.take n r) else None
  else None.

Fixpoint parse_from (skip : nat) (s : string) : template :=
  match s with
  | "" => []
  | String c s' =>
      match skip with
      | S n => parse_from n s'
      | O =>
          match leading_token s with
          | Some key => Tok key :: parse_from (String.length (token key) - 1) s'
          | None => Lit c :: parse_from 0 s'
          end
      end
  end.

Definition parse (s : string) : template := parse_from 0 s.

(** The tokens of a template that the scan reports: those with a key that
    is not empty. *)
Fixpoint tokens_of (t : template) : list string :=
  match t with
  | [] => []
  | Lit _ :: t' => tokens_of t'
  | Tok key :: t' =>
      if String.eqb key "" then tokens_of t' else token key :: tokens_of t'
  end.

(* ################################################################# *)
(** * Part II: properties *)

(* ================================================================= *)
(** ** Worked examples *)

Example flatten_docstring :
  flatten (JDict [("brand", JDict [("primary", JStr "#fff")])]) ""
  = Some [("brand.primary", "#fff")].
Proof. reflexivity. Qed.

Example str_examples :
  List.map PyStr.str
    [JNull; JBool true; JInt 42; JInt (-7); JInt 0; JFloat "1.5"; JStr "a'b";
     JList [JInt 1; JStr "x"; JNull; JList []; JDict [("k", JStr "v")]];
     JList [JStr "it's"]]
  = ["None"; "True"; "42"; "-7"; "0"; "1.5"; "a'b";
     "[1, 'x', None, [], {'k': 'v'}]";
     "[" ++ String PyStr.dquote "it's" ++ String PyStr.dquote "]"].
Proof. reflexivity. Qed.

Example leaves_example :
  leaves (JDict [("a", JDict [("b", JInt 1); ("c", JDict [])]); ("d", JList [])])
  = [(["a"; "b"], JInt 1); (["d"], JList [])].
Proof. reflexivity. Qed.

Example replace_examples :
  replace "aa" "b" "aaa" = "ba"
  /\ replace "" "-" "abc" = "-a-b-c-"
  /\ replace (token "a.b") "hello" "<p>{{a.b}}</p>" = "<p>hello</p>".
Proof. repeat split; reflexivity. Qed.

Example findall_examples :
  findall "{{x}} {{}} {{a}b}} {{ y }}{{{z}}" = ["{{x}}"; "{{ y }}"; "{{{z}}"].
Proof. reflexivity. Qed.

Example parse_example :
  parse "a{{x}}{b}" = [Lit "a"; Tok "x"; Lit "{"; Lit "b"; Lit "}"].
Proof. reflexivity. Qed.

Example sorted_example :
  sorted (py_set ["{{b}}"; "{{a}}"; "{{b}}"; "{{B}}"]) = ["{{B}}"; "{{a}}"; "{{b}}"].
Proof. reflexivity. Qed.

(* ================================================================= *)
(** ** Strings *)

Lemma str_app_nil_r (s : string) : s ++ "" = s.
Proof. induction s as [|c s IH]; simpl; [reflexivity | now rewrite IH]. Qed.

Lemma str_app_assoc (a b c : string) : (a ++ b) ++ c = a ++ (b ++ c).
Proof. induction a as [|x a IH]; simpl; [reflexivity | now rewrite IH]. Qed.

Lemma str_length_app (a b : string) :
  String.length (a ++ b) = String.length a + String.length b.
Proof. induction a as [|x a IH]; simpl; [reflexivity | now rewrite IH]. Qed.

Lemma str_app_inv_head (a b c : string) : a ++ b = a ++ c -> b = c.
Proof.
  induction a as [|x a IH]; simpl; intros H; [assumption|].
  injection H as H. auto.
Qed.

Lemma contains_app (c : ascii) (a b : string) :
  Str.contains c (a ++ b) = Str.contains c a || Str.contains c b.
Proof.
  induction a as [|x a IH]; simpl; [reflexivity|].
  now rewrite IH, orb_assoc.
Qed.

Lemma startswith_app (p s : string) : Str.startswith p (p ++ s) = true.
Proof.
  induction p as [|x p IH]; simpl; [reflexivity|].
  now rewrite Ascii.eqb_refl, IH.
Qed.

Lemma startswith_inv (p s : string) :
  Str.startswith p s = true -> exists r, s = p ++ r.
Proof.
  revert s; induction p as [|x p IH]; intros s H; simpl in *.
  - now exists s.
  - destruct s as [|y s]; [discriminate|].
    apply andb_true_iff in H as [Hxy Hp].
    apply Ascii.eqb_eq in Hxy; subst y.
    destruct (IH _ Hp) as [r ->]. now exists r.
Qed.

Lemma drop_app (a b : string) : Str.drop (String.length a) (a ++ b) = b.
Proof. induction a as [|x a IH]; simpl; [now destruct b | assumption]. Qed.

Lemma take_app (a b : string) : Str.take (String.length a) (a ++ b) = a.
Proof.
  induction a as [|x a IH]; simpl; [now destruct b | now rewrite IH].
Qed.

Lemma take_drop (n : nat) (s : string) : Str.take n s ++ Str.drop n s = s.
Proof.
  revert s; induction n as [|n IH]; intros [|c s]; simpl; try reflexivity.
  now rewrite IH.
Qed.

(* ================================================================= *)
(** ** Dictionaries *)

Lemma get_set {V : Type} (k k' : string) (v : V) (d : dict V) :
  Dict.get k (Dict.set k' v d) = if String.eqb k' k then Some v else Dict.get k d.
Proof.
  induction d as [|[k0 v0] d IH]; simpl.
  - reflexivity.
  - destruct (String.eqb k0 k') eqn:E0; simpl.
    + apply String.eqb_eq in E0; subst k0.
      destruct (String.eqb k' k); reflexivity.
    + destruct (String.eqb k0 k) eqn:E1.
      * apply String.eqb_eq in E1; subst k0.
        rewrite String.eqb_sym in E0. now rewrite E0.
      * exact IH.
Qed.

Lemma get_app {V : Type} (k : string) (a b : dict V) :
  Dict.get k (a ++ b)%list
  = match Dict.get k a with Some v => Some v | None => Dict.get k b end.
Proof.
  induction a as [|[k0 v0] a IH]; simpl; [reflexivity|].
  destruct (String.eqb k0 k); [reflexivity | exact IH].
Qed.

(** After [d.update(other)] a key has the value of its last entry in
    [other], or the value it had in [d]. *)
Lemma get_update {V : Type} (k : string) (other d : dict V) :
  Dict.get k (Dict.update d other)
  = match Dict.get k (rev other) with Some v => Some v | None => Dict.get k d end.
Proof.
  unfold Dict.update. revert d.
  induction other as [|[k0 v0] other IH]; intros d; simpl; [reflexivity|].
  rewrite IH, get_app, get_set. simpl.
  destruct (Dict.get k (rev other)); [reflexivity|].
  destruct (String.eqb k0 k); reflexivity.
Qed.

Lemma set_keys_nodup {V : Type} (k : string) (v : V) (d : dict V) :
  NoDup (Dict.keys d) -> NoDup (Dict.keys (Dict.set k v d)).
Proof.
  assert (Hin : forall d x, In x (Dict.keys (Dict.set k v d)) -> x = k \/ In x (Dict.keys d)).
  { clear d. induction d as [|[k0 v0] d IH]; simpl; intros x Hx.
    - destruct Hx as [<-|[]]. now left.
    - destruct (String.eqb k0 k); simpl in Hx.
      + right. exact Hx.
      + destruct Hx as [<-|Hx]; [right; now left|].
        destruct (IH _ Hx); [now left | right; now right]. }
  unfold Dict.keys. induction d as [|[k0 v0] d IH]; simpl; intros Hnd.
  - constructor; [intros [] | constructor].
  - inversion Hnd as [|? ? Hk0 Hd]; subst.
    destruct (String.eqb k0 k) eqn:E; simpl.
    + constructor; assumption.
    + constructor; [|now apply IH].
      intros Hx. apply Hin in Hx as [->|Hx]; [|now apply Hk0].
      now rewrite String.eqb_refl in E.
Qed.

Lemma update_keys_nodup {V : Type} (other d : dict V) :
  NoDup (Dict.keys d) -> NoDup (Dict.keys (Dict.update d other)).
Proof.
  unfold Dict.update. revert d.
  induction other as [|[k v] other IH]; intros d Hd; simpl; [assumption|].
  apply IH. now apply set_keys_nodup.
Qed.

Lemma get_in {V : Type} (k : string) (v : V) (d : dict V) :
  Dict.get k d = Some v -> In (k, v) d.
Proof.
  induction d as [|[k0 v0] d IH]; simpl; [discriminate|].
  destruct (String.eqb k0 k) eqn:E.
  - apply String.eqb_eq in E; subst. intros [= ->]. now left.
  - intros H. right. now apply IH.
Qed.

Lemma in_get {V : Type} (k : string) (v : V) (d : dict V) :
  NoDup (Dict.keys d) -> In (k, v) d -> Dict.get k d = Some v.
Proof.
  unfold Dict.keys.
  induction d as [|[k0 v0] d IH]; simpl; intros Hnd Hin; [contradiction|].
  inversion Hnd as [|? ? Hk0 Hd]; subst.
  destruct Hin as [[= -> ->]|Hin].
  - now rewrite String.eqb_refl.
  - destruct (String.eqb k0 k) eqn:E; [|now apply IH].
    apply String.eqb_eq in E; subst k0.
    exfalso. apply Hk0. apply in_map_iff. now exists (k, v).
Qed.

(** Two dictionaries with the same entries in another order answer every
    lookup alike. *)
Lemma get_permutation {V : Type} (k : string) (d d' : dict V) :
  NoDup (Dict.keys d) -> Permutation d d' -> Dict.get k d = Dict.get k d'.
Proof.
  intros Hnd Hp.
  assert (Hnd' : NoDup (Dict.keys d')).
  { unfold Dict.keys. eapply Permutation_NoDup; [|exact Hnd].
    now apply Permutation_map. }
  destruct (Dict.get k d) as [v|] eqn:E.
  - symmetry. apply in_get; [assumption|].
    eapply Permutation_in; [exact Hp|]. now apply get_in.
  - destruct (Dict.get k d') as [v'|] eqn:E'; [|reflexivity].
    apply get_in in E'. apply Permutation_sym in Hp.
    pose proof (Permutation_in _ Hp E') as Hin.
    apply (in_get _ _ _ Hnd) in Hin. congruence.
Qed.

(* ================================================================= *)
(** ** Induction over nested values *)

Section JsonInd.
Variable P : json -> Prop.
Hypothesis HNull : P JNull.
Hypothesis HBool : forall b, P (JBool b).
Hypothesis HInt : forall z, P (JInt z).
Hypothesis HFloat : forall r, P (JFloat r).
Hypothesis HStr : forall s, P (JStr s).
Hypothesis HList : forall l, Forall P l -> P (JList l).
Hypothesis HDict : forall d, Forall (fun kv => P (snd kv)) d -> P (JDict d).

Fixpoint json_nested_ind (v : json) : P v :=
  match v with
  | JNull => HNull
  | JBool b => HBool b
  | JInt z => HInt z
  | JFloat r => HFloat r
  | JStr s => HStr s
  | JList l =>
      HList l
        ((fix go (l : list json) : Forall P l :=
            match l with
            | [] => Forall_nil _
            | x :: l' => Forall_cons x (json_nested_ind x) (go l')
            end) l)
  | JDict d =>
      HDict d
        ((fix go (d : list (string * json)) : Forall (fun kv => P (snd kv)) d :=
            match d with
            | [] => Forall_nil _
            | kv :: d' => Forall_cons kv (json_nested_ind (snd kv)) (go d')
            end) d)
  end.
End JsonInd.

(** A property of dicts only needs the dict case. *)
Lemma dict_ind (P : json -> Prop) :
  (forall d, Forall (fun kv => is_dict (snd kv) = true -> P (snd kv)) d -> P (JDict d)) ->
  forall v, is_dict v = true -> P v.
Proof.
  intros H v.
  induction v as [| | | | | l _ | d IH] using json_nested_ind; try discriminate.
  intros _. apply H. exact IH.
Qed.

(* ================================================================= *)
(** ** [flatten]: what it computes *)

(** The loop of [flatten] on its own. *)
Fixpoint flatten_loop (prefix : string) (items : list (string * json))
  (result : dict string) : option (dict string) :=
  match items with
  | [] => Some result
  | (key, value) :: rest =>
      if is_dict value then
        match flatten value (full_key prefix key) with
        | Some sub => flatten_loop prefix rest (Dict.update result sub)
        | None => None
        end
      else flatten_loop prefix rest (Dict.set (full_key prefix key) (PyStr.str value) result)
  end.

Lemma flatten_unfold (items : list (string * json)) (prefix : string) :
  flatten (JDict items) prefix = flatten_loop prefix items [].
Proof.
  simpl. generalize (@nil (string * string)).
  induction items as [|[k v] rest IH]; intros r; simpl; [reflexivity|].
  destruct (is_dict v); [|apply IH].
  destruct (flatten v (full_key prefix k)); [apply IH | reflexivity].
Qed.

(** The entries that [flatten] writes, in the order it writes them: one
    per leaf, under the key composed along its path. *)
Definition entries (d : json) (prefix : string) : list (string * string) :=
  List.map (fun pl => (path_key prefix (fst pl), PyStr.str (snd pl))) (leaves d).

Lemma leaves_cons (k : string) (v : json) (rest : list (string * json)) :
  leaves (JDict ((k, v) :: rest))
  = ((if is_dict v then List.map (fun pl => (k :: fst pl, snd pl)) (leaves v)
      else [([k], v)]) ++ leaves (JDict rest))%list.
Proof. reflexivity. Qed.

Lemma entries_cons (k : string) (v : json) (rest : list (string * json)) (prefix : string) :
  entries (JDict ((k, v) :: rest)) prefix
  = ((if is_dict v then entries v (full_key prefix k)
      else [(full_key prefix k, PyStr.str v)]) ++ entries (JDict rest) prefix)%list.
Proof.
  unfold entries. rewrite leaves_cons, map_app. f_equal.
  destruct (is_dict v); [|reflexivity].
  rewrite map_map. reflexivity.
Qed.

Lemma get_rev_nodup {V : Type} (k : string) (d : dict V) :
  NoDup (Dict.keys d) -> Dict.get k (rev d) = Dict.get k d.
Proof.
  intros Hnd. symmetry. apply get_permutation; [assumption|].
  apply Permutation_rev.
Qed.

Lemma flatten_loop_get (prefix : string) (items : list (string * json)) :
  Forall (fun kv => is_dict (snd kv) = true ->
            forall prefix, exists flat,
              flatten (snd kv) prefix = Some flat
              /\ NoDup (Dict.keys flat)
              /\ forall k, Dict.get k flat = Dict.get k (rev (entries (snd kv) prefix)))
         items ->
  forall result, NoDup (Dict.keys result) ->
  exists flat,
    flatten_loop prefix items result = Some flat
    /\ NoDup (Dict.keys flat)
    /\ forall k, Dict.get k flat
                 = match Dict.get k (rev (entries (JDict items) prefix)) with
                   | Some v => Some v
                   | None => Dict.get k result
                   end.
Proof.
  induction 1 as [|[key value] rest Hv _ IH]; intros result Hnd.
  - exists result. repeat split; assumption.
  - simpl in Hv. simpl flatten_loop. rewrite entries_cons.
    destruct (is_dict value) eqn:Ed.
    + destruct (Hv eq_refl (full_key prefix key)) as (sub & -> & Hsub & Hget).
      destruct (IH (Dict.update result sub)) as (flat & Hf & Hfn & Hfg).
      { now apply update_keys_nodup. }
      exists flat. repeat split; try assumption.
      intros k. rewrite Hfg, rev_app_distr, get_app, get_update.
      rewrite (get_rev_nodup _ _ Hsub), Hget.
      destruct (Dict.get k (rev (entries (JDict rest) prefix))); reflexivity.
    + destruct (IH (Dict.set (full_key prefix key) (PyStr.str value) result))
        as (flat & Hf & Hfn & Hfg).
      { now apply set_keys_nodup. }
      exists flat. repeat split; try assumption.
      intros k. rewrite Hfg, rev_app_distr, get_app, get_set. simpl.
      destruct (Dict.get k (rev (entries (JDict rest) prefix))); [reflexivity|].
      destruct (String.eqb (full_key prefix key) k); reflexivity.
Qed.

(** [flatten] returns on every dict, with pairwise distinct keys, and a key
    holds the text of the last leaf written under it. *)
Lemma flatten_get (d : json) :
  is_dict d = true ->
  forall prefix, exists flat,
    flatten d prefix = Some flat
    /\ NoDup (Dict.keys flat)
    /\ forall k, Dict.get k flat = Dict.get k (rev (entries d prefix)).
Proof.
  revert d. apply (dict_ind (fun d => forall prefix, exists flat, _)).
  intros items IH prefix. rewrite flatten_unfold.
  destruct (flatten_loop_get prefix items IH [] (NoDup_nil _)) as (flat & Hf & Hn & Hg).
  exists flat. repeat split; try assumption.
  intros k. rewrite Hg. simpl.
  destruct (Dict.get k (rev (entries (JDict items) prefix))); reflexivity.
Qed.

(* ================================================================= *)
(** ** Composed keys *)

(** What the nesting levels after the first add to a key. *)
Fixpoint dots (path : list string) : string :=
  match path with
  | [] => ""
  | k :: path' => "." ++ k ++ dots path'
  end.

Lemma full_key_nonempty (prefix key : string) :
  prefix <> "" -> full_key prefix key = prefix ++ "." ++ key /\ full_key prefix key <> "".
Proof.
  destruct prefix as [|c p]; [congruence|]. intros _.
  split; [reflexivity | discriminate].
Qed.

Lemma path_key_nonempty (path : list string) (prefix : string) :
  prefix <> "" -> path_key prefix path = prefix ++ dots path.
Proof.
  revert prefix. unfold path_key.
  induction path as [|k path IH]; intros prefix Hp; simpl.
  - now rewrite str_app_nil_r.
  - destruct (full_key_nonempty prefix k Hp) as [E Hne].
    rewrite (IH _ Hne), E.
    now rewrite !str_app_assoc.
Qed.

Lemma path_key_root (k : string) (path : list string) :
  k <> "" -> path_key "" (k :: path) = k ++ dots path.
Proof. intros Hk. exact (path_key_nonempty path k Hk). Qed.

Lemma dotted_dots (k : string) (path : list string) :
  dotted (k :: path) = k ++ dots path.
Proof.
  unfold dotted. revert k. induction path as [|k' path IH]; intros k.
  - simpl. now rewrite str_app_nil_r.
  - change (String.concat "." (k :: k' :: path))
      with (k ++ "." ++ String.concat "." (k' :: path)).
    rewrite IH. reflexivity.
Qed.

(** On a path that starts with a non-empty key the code composes the
    dotted path of the specification. *)
Lemma path_key_dotted (path : list string) :
  (forall k, In k path -> k <> "") -> path_key "" path = dotted path.
Proof.
  destruct path as [|k path]; intros H; [reflexivity|].
  rewrite dotted_dots. apply path_key_root. apply H. now left.
Qed.

Definition dot_free (k : string) : Prop := Str.contains "."%char k = false.

Lemma plain_key_inv (k : string) : plain_key k = true -> k <> "" /\ dot_free k.
Proof.
  unfold plain_key, dot_free. intros H.
  apply andb_true_iff in H as [H1 H2].
  apply negb_true_iff in H1, H2. split; [|assumption].
  now apply String.eqb_neq.
Qed.

Lemma dots_head (path : list string) :
  dots path = "" \/ exists r, dots path = String "."%char r.
Proof. destruct path; simpl; [now left | right; eauto]. Qed.

Lemma split_at_dot (a a' x x' : string) :
  dot_free a -> dot_free a' ->
  (x = "" \/ exists r, x = String "."%char r) ->
  (x' = "" \/ exists r, x' = String "."%char r) ->
  a ++ x = a' ++ x' -> a = a' /\ x = x'.
Proof.
  unfold dot_free. revert a'.
  induction a as [|c a IH]; intros [|c' a'] Ha Ha' Hx Hx' E; simpl in *.
  - now split.
  - exfalso. apply orb_false_iff in Ha' as [Hc _].
    destruct Hx as [->|[r ->]]; [discriminate|].
    injection E as E1 _. subst c'. now rewrite Ascii.eqb_refl in Hc.
  - exfalso. apply orb_false_iff in Ha as [Hc _].
    destruct Hx' as [->|[r ->]]; [discriminate|].
    injection E as E1 _. subst c. now rewrite Ascii.eqb_refl in Hc.
  - injection E as -> E.
    apply orb_false_iff in Ha as [_ Ha], Ha' as [_ Ha'].
    destruct (IH a' Ha Ha' Hx Hx' E) as [-> ->]. now split.
Qed.

Lemma dots_inj (path path' : list string) (a a' : string) :
  dot_free a -> dot_free a' ->
  Forall dot_free path -> Forall dot_free path' ->
  a ++ dots path = a' ++ dots path' -> a = a' /\ path = path'.
Proof.
  revert path' a a'.
  induction path as [|k path IH]; intros path' a a' Ha Ha' Hp Hp' E.
  - destruct (split_at_dot a a' _ _ Ha Ha' (dots_head []) (dots_head path') E) as [-> E'].
    split; [reflexivity|]. destruct path'; [reflexivity | discriminate].
  - destruct (split_at_dot a a' _ _ Ha Ha' (dots_head (k :: path)) (dots_head path') E)
      as [-> E'].
    split; [reflexivity|].
    destruct path' as [|k' path']; [discriminate|].
    simpl in E'. injection E' as E'.
    inversion Hp; inversion Hp'; subst.
    destruct (IH path' k k') as [-> ->]; auto.
Qed.

(** Composition is injective on paths of plain keys. *)
Lemma path_key_inj (p p' : list string) :
  p <> [] -> p' <> [] ->
  Forall (fun k => plain_key k = true) p -> Forall (fun k => plain_key k = true) p' ->
  path_key "" p = path_key "" p' -> p = p'.
Proof.
  destruct p as [|k p]; [congruence|]. destruct p' as [|k' p']; [congruence|].
  intros _ _ Hp Hp' E.
  inversion Hp as [|? ? Hk Hr]; inversion Hp' as [|? ? Hk' Hr']; subst.
  apply plain_key_inv in Hk as [Hne Hd], Hk' as [Hne' Hd'].
  rewrite !path_key_root in E by assumption.
  destruct (dots_inj p p' k k') as [-> ->]; auto.
  - eapply Forall_impl; [|exact Hr]. intros x Hx. now apply plain_key_inv in Hx.
  - eapply Forall_impl; [|exact Hr']. intros x Hx. now apply plain_key_inv in Hx.
Qed.

(* ================================================================= *)
(** ** The paths of a document *)

Lemma distinct_nodup (l : list string) : distinct l = true -> NoDup l.
Proof.
  induction l as [|x l IH]; simpl; intros H; [constructor|].
  apply andb_true_iff in H as [Hx Hl]. constructor; [|now apply IH].
  intros Hin. apply negb_true_iff in Hx.
  assert (existsb (String.eqb x) l = true); [|congruence].
  apply existsb_exists. exists x. split; [assumption | apply String.eqb_refl].
Qed.

Lemma leaves_head (items : list (string * json)) (p : list string) (l : json) :
  In (p, l) (leaves (JDict items)) ->
  exists k p', p = k :: p' /\ In k (List.map fst items).
Proof.
  induction items as [|[k v] rest IH]; [intros []|].
  rewrite leaves_cons. intros Hin. apply in_app_or in Hin as [Hin|Hin].
  - exists k. destruct (is_dict v).
    + apply in_map_iff in Hin as ([p0 l0] & [= <- <-] & _).
      exists p0. split; [reflexivity | now left].
    + destruct Hin as [[= <- <-]|[]]. exists []. split; [reflexivity | now left].
  - destruct (IH Hin) as (k' & p' & -> & Hk). exists k', p'.
    split; [reflexivity | now right].
Qed.

Lemma map_inj_nodup {A B : Type} (f : A -> B) (l : list A) :
  (forall x y, In x l -> In y l -> f x = f y -> x = y) ->
  NoDup l -> NoDup (List.map f l).
Proof.
  intros Hinj Hnd. induction Hnd as [|x l Hx Hnd IH]; simpl; constructor.
  - intros Hin. apply in_map_iff in Hin as (y & E & Hy).
    assert (y = x) by (apply Hinj; [now right | now left | assumption]).
    subst y. contradiction.
  - apply IH. intros a b Ha Hb. apply Hinj; now right.
Qed.

(** In a well-formed document no path is listed twice. *)
Lemma leaves_nodup (d : json) : wf d = true -> NoDup (List.map fst (leaves d)).
Proof.
  induction d as [| | | | | l _ | items IH] using json_nested_ind;
    try (intros _; constructor).
  induction IH as [|[k v] rest Hv _ IHrest]; intros Hwf; [constructor|].
  simpl in Hwf, Hv.
  apply andb_true_iff in Hwf as [Hdist Hall].
  apply andb_true_iff in Hdist as [Hk Hdist], Hall as [Hwv Hall].
  assert (Hrest : NoDup (List.map fst (leaves (JDict rest)))).
  { apply IHrest. simpl. now rewrite Hdist, Hall. }
  rewrite leaves_cons, map_app. apply NoDup_app; [|exact Hrest|].
  - destruct (is_dict v).
    + rewrite map_map. simpl.
      rewrite <- (map_map fst (cons k)).
      apply map_inj_nodup; [|now apply Hv].
      intros x y _ _ [= ->]. reflexivity.
    + constructor; [intros [] | constructor].
  - intros p Hp Hp'.
    apply in_map_iff in Hp' as ([p' l'] & <- & Hin').
    apply leaves_head in Hin' as (k' & q & E & Hk').
    simpl in E. subst p'.
    assert (k' = k).
    { destruct (is_dict v).
      - apply in_map_iff in Hp as ([p0 l0] & E & Hin0). simpl in E.
        apply in_map_iff in Hin0 as ([p1 l1] & [= <- <-] & _).
        simpl in E. now injection E.
      - destruct Hp as [E|[]]. now injection E. }
    subst k'. apply negb_true_iff in Hk.
    assert (existsb (String.eqb k) (List.map fst rest) = true); [|congruence].
    apply existsb_exists. exists k. split; [assumption | apply String.eqb_refl].
Qed.

(** The paths of a document with plain keys are not empty and are made of
    plain keys. *)
Lemma leaves_plain (d : json) :
  plain_keys d = true ->
  forall p l, In (p, l) (leaves d) ->
    p <> [] /\ Forall (fun k => plain_key k = true) p.
Proof.
  induction d as [| | | | | l _ | items IH] using json_nested_ind;
    try (intros _ p l0 []).
  induction IH as [|[k v] rest Hv _ IHrest]; intros Hpl p l Hin; [destruct Hin|].
  simpl in Hpl, Hv.
  apply andb_true_iff in Hpl as [Hkv Hall]. apply andb_true_iff in Hkv as [Hk Hpv].
  rewrite leaves_cons in Hin. apply in_app_or in Hin as [Hin|Hin].
  - destruct (is_dict v).
    + apply in_map_iff in Hin as ([p0 l0] & [= <- <-] & Hin0).
      destruct (Hv Hpv _ _ Hin0) as [_ Hall0].
      split; [discriminate | now constructor].
    + destruct Hin as [[= <- <-]|[]]. split; [discriminate|].
      constructor; [assumption | constructor].
  - exact (IHrest Hall p l Hin).
Qed.

(** The leaf at the end of a path is never a dict. *)
Lemma leaves_not_dict (d : json) (p : list string) (l : json) :
  In (p, l) (leaves d) -> is_dict l = false.
Proof.
  revert p l.
  induction d as [| | | | | l0 _ | items IH] using json_nested_ind;
    try (intros p l []).
  induction IH as [|[k v] rest Hv _ IHrest]; intros p l Hin; [destruct Hin|].
  simpl in Hv. rewrite leaves_cons in Hin. apply in_app_or in Hin as [Hin|Hin].
  - destruct (is_dict v) eqn:E.
    + apply in_map_iff in Hin as ([p0 l0] & [= <- <-] & Hin0). eapply Hv, Hin0.
    + destruct Hin as [[= <- <-]|[]]. exact E.
  - eapply IHrest, Hin.
Qed.

(* ================================================================= *)
(** ** [flatten]: the claims *)

(** The flattened mapping as the specification describes it: its keys are
    the dotted paths of the leaves, and each holds the text of its leaf. *)
Definition flatten_spec (d : json) : Prop :=
  exists flat,
    flatten d "" = Some flat
    /\ forall k v,
         Dict.get k flat = Some v
         <-> exists path leaf,
               In (path, leaf) (leaves d) /\ dotted path = k /\ PyStr.str leaf = v.

(** Distinct paths get distinct keys. *)
Definition keys_distinct (d : json) : Prop :=
  forall p1 l1 p2 l2,
    In (p1, l1) (leaves d) -> In (p2, l2) (leaves d) -> p1 <> p2 ->
    path_key "" p1 <> path_key "" p2.

Lemma flatten_loop_app (prefix : string) (a b : list (string * json)) (r : dict string) :
  flatten_loop prefix (a ++ b)%list r
  = match flatten_loop prefix a r with
    | Some r' => flatten_loop prefix b r'
    | None => None
    end.
Proof.
  revert r. induction a as [|[k v] a IH]; intros r; simpl; [reflexivity|].
  destruct (is_dict v); [|apply IH].
  destruct (flatten v (full_key prefix k)); [apply IH | reflexivity].
Qed.

(** An empty dict leaves the flattened mapping as it is. *)
Lemma flatten_empty_branch (pre post : list (string * json)) (key prefix : string) :
  flatten (JDict (pre ++ (key, JDict []) :: post)) prefix
  = flatten (JDict (pre ++ post)) prefix.
Proof.
  rewrite !flatten_unfold, !flatten_loop_app.
  destruct (flatten_loop prefix pre []); reflexivity.
Qed.

Lemma entries_keys_nodup (d : json) :
  wf d = true -> plain_keys d = true -> NoDup (List.map fst (entries d "")).
Proof.
  intros Hwf Hpl. unfold entries. rewrite map_map. simpl.
  rewrite <- (map_map fst (path_key "")).
  apply map_inj_nodup; [|now apply leaves_nodup].
  intros p p' Hp Hp' E.
  apply in_map_iff in Hp as ([p0 l0] & <- & Hin).
  apply in_map_iff in Hp' as ([p1 l1] & <- & Hin').
  destruct (leaves_plain d Hpl _ _ Hin) as [Hne Hall].
  destruct (leaves_plain d Hpl _ _ Hin') as [Hne' Hall'].
  now apply path_key_inj.
Qed.

Lemma get_entries (d : json) (k v : string) :
  wf d = true -> plain_keys d = true ->
  (Dict.get k (rev (entries d "")) = Some v <-> In (k, v) (entries d "")).
Proof.
  intros Hwf Hpl.
  pose proof (entries_keys_nodup d Hwf Hpl) as Hnd.
  rewrite get_rev_nodup by exact Hnd.
  split; [apply get_in | now apply in_get].
Qed.

Lemma plain_path_dotted (d : json) (p : list string) (l : json) :
  plain_keys d = true -> In (p, l) (leaves d) -> path_key "" p = dotted p.
Proof.
  intros Hpl Hin. destruct (leaves_plain d Hpl p l Hin) as [_ Hall].
  apply path_key_dotted. intros k Hk.
  rewrite Forall_forall in Hall. now apply plain_key_inv, Hall.
Qed.

Lemma get_none_keys {V : Type} (k : string) (d : dict V) :
  Dict.get k d = None <-> ~ In k (Dict.keys d).
Proof.
  unfold Dict.keys. induction d as [|[k0 v0] d IH]; simpl.
  - split; [intros _ [] | reflexivity].
  - destruct (String.eqb k0 k) eqn:E.
    + apply String.eqb_eq in E. split; [discriminate|]. intros H. exfalso. apply H. now left.
    + apply String.eqb_neq in E. rewrite IH. split.
      * intros H [H'|H']; [congruence | contradiction].
      * intros H H'. apply H. now right.
Qed.

(** In a reversed list the first entry of a key is the last one of the
    list. *)
Lemma get_rev_last {V : Type} (k : string) (v : V) (l : dict V) :
  Dict.get k (rev l) = Some v
  <-> exists l1 l2, l = (l1 ++ (k, v) :: l2)%list /\ ~ In k (List.map fst l2).
Proof.
  split.
  - induction l as [|[k0 v0] l IH]; [discriminate|].
    simpl rev. rewrite get_app.
    destruct (Dict.get k (rev l)) as [v'|] eqn:E.
    + intros [= ->]. destruct (IH eq_refl) as (l1 & l2 & -> & Hn).
      exists ((k0, v0) :: l1), l2. now split.
    + simpl. destruct (String.eqb k0 k) eqn:Ek; [|discriminate].
      apply String.eqb_eq in Ek. subst k0. intros [= ->].
      exists [], l. split; [reflexivity|].
      apply get_none_keys in E. unfold Dict.keys in E.
      rewrite map_rev in E. intros Hin. apply E. now apply in_rev in Hin.
  - intros (l1 & l2 & -> & Hn).
    rewrite rev_app_distr. simpl. rewrite <- app_assoc, get_app.
    replace (Dict.get k (rev l2)) with (@None V).
    + simpl. now rewrite String.eqb_refl.
    + symmetry. apply get_none_keys. unfold Dict.keys. rewrite map_rev.
      intros Hin. apply Hn. now apply in_rev.
Qed.

(** Dictionaries that answer every lookup alike and have no repeated key
    have the same number of entries. *)
Lemma same_get_same_length {V W : Type} (d : dict V) (e : dict W) :
  NoDup (Dict.keys d) -> NoDup (Dict.keys e) ->
  (forall k, Dict.get k d = None <-> Dict.get k e = None) ->
  List.length d = List.length e.
Proof.
  intros Hd He H.
  rewrite <- (length_map fst d), <- (length_map fst e).
  apply Permutation_length, NoDup_Permutation; try assumption.
  intros k. fold (Dict.keys d) (Dict.keys e).
  destruct (in_dec string_dec k (Dict.keys d)) as [Hi|Hn];
    destruct (in_dec string_dec k (Dict.keys e)) as [Hi'|Hn']; try tauto.
  - apply get_none_keys, H, get_none_keys in Hn'. contradiction.
  - apply get_none_keys, H, get_none_keys in Hn. contradiction.
Qed.

(** C1, as stated, fails: a key with a dot meets the key composed for a
    nested path, and the entry written last replaces the other.  In
    [{"a.b": "1", "a": {"b": "2"}}] the path [a.b] leads to the leaf ["1"],
    but the flattened mapping holds ["2"] under [a.b]. *)
Lemma flatten_spec_counterexample :
  let d := JDict [("a.b", JStr "1"); ("a", JDict [("b", JStr "2")])] in
  wf d = true
  /\ In (["a.b"], JStr "1") (leaves d)
  /\ dotted ["a.b"] = "a.b"
  /\ flatten d "" = Some [("a.b", "2")]
  /\ (flatten_spec d -> False).
Proof.
  cbv zeta. repeat split; try reflexivity.
  - now left.
  - intros (flat & Hf & H).
    injection Hf as <-.
    assert (E : Dict.get "a.b" [("a.b", "2")] = Some "1").
    { apply H. exists ["a.b"], (JStr "1"). repeat split; try reflexivity. now left. }
    discriminate E.
Qed.

(** C1 (amended): for every document whose keys are not empty and have no
    dot, [flatten] returns a mapping whose keys are exactly the dotted
    root-to-leaf paths, each holding the [str] of its leaf; and a branch
    that is an empty dict contributes no entry. *)
Theorem flatten_paths (items : list (string * json)) :
  wf (JDict items) = true ->
  plain_keys (JDict items) = true ->
  flatten_spec (JDict items)
  /\ forall pre post key,
       items = (pre ++ (key, JDict []) :: post)%list ->
       flatten (JDict items) "" = flatten (JDict (pre ++ post)) "".
Proof.
  intros Hwf Hpl. split.
  - destruct (flatten_get (JDict items) eq_refl "") as (flat & Hf & _ & Hg).
    exists flat. split; [exact Hf|].
    intros k v. rewrite Hg, (get_entries _ k v Hwf Hpl). unfold entries.
    rewrite in_map_iff. split.
    + intros ([p l] & [= <- <-] & Hin). exists p, l.
      repeat split; try assumption. symmetry. eapply plain_path_dotted; eassumption.
    + intros (p & l & Hin & <- & <-). exists (p, l). split; [|assumption].
      simpl. f_equal. eapply plain_path_dotted; eassumption.
  - intros pre post key ->. apply flatten_empty_branch.
Qed.

Lemma flatten_paths_witness :
  flatten_spec
    (JDict [("brand", JDict [("primary", JStr "#fff"); ("empty", JDict [])]);
            ("count", JInt 3)]).
Proof.
  exact (proj1 (flatten_paths
                  [("brand", JDict [("primary", JStr "#fff"); ("empty", JDict [])]);
                   ("count", JInt 3)] eq_refl eq_refl)).
Defined.

(** C4, as stated, fails: in [{"a.b": "1", "a": {"b": "2"}}] the distinct
    paths [a.b] and [a], [b] are both given the key [a.b]. *)
Lemma keys_distinct_counterexample :
  let d := JDict [("a.b", JStr "1"); ("a", JDict [("b", JStr "2")])] in
  wf d = true
  /\ In (["a.b"], JStr "1") (leaves d)
  /\ In (["a"; "b"], JStr "2") (leaves d)
  /\ path_key "" ["a.b"] = path_key "" ["a"; "b"]
  /\ (keys_distinct d -> False).
Proof.
  cbv zeta. repeat split; try reflexivity.
  - now left.
  - right. now left.
  - intros H.
    apply (H ["a.b"] (JStr "1") ["a"; "b"] (JStr "2")).
    + now left.
    + right. now left.
    + discriminate.
    + reflexivity.
Qed.

(** C4 (amended): in a document whose keys are not empty and have no dot,
    two distinct root-to-leaf paths are given distinct keys; so every leaf
    keeps its own entry, and the mapping has one entry per leaf. *)
Theorem flatten_keys_distinct (items : list (string * json)) :
  wf (JDict items) = true ->
  plain_keys (JDict items) = true ->
  keys_distinct (JDict items)
  /\ exists flat,
       flatten (JDict items) "" = Some flat
       /\ List.length flat = List.length (leaves (JDict items))
       /\ forall p l, In (p, l) (leaves (JDict items)) ->
                      Dict.get (path_key "" p) flat = Some (PyStr.str l).
Proof.
  intros Hwf Hpl. split.
  - intros p1 l1 p2 l2 H1 H2 Hne E. apply Hne.
    destruct (leaves_plain _ Hpl _ _ H1) as [Hn1 Ha1].
    destruct (leaves_plain _ Hpl _ _ H2) as [Hn2 Ha2].
    now apply path_key_inj.
  - destruct (flatten_get (JDict items) eq_refl "") as (flat & Hf & Hnd & Hg).
    pose proof (entries_keys_nodup _ Hwf Hpl) as Hne.
    exists flat. split; [exact Hf|]. split.
    + transitivity (List.length (entries (JDict items) "")).
      * apply same_get_same_length; try assumption.
        intros k. rewrite Hg, get_rev_nodup by exact Hne. reflexivity.
      * unfold entries. apply length_map.
    + intros p l Hin. rewrite Hg. apply (get_entries _ _ _ Hwf Hpl).
      unfold entries. apply in_map_iff. now exists (p, l).
Qed.

Lemma flatten_keys_distinct_witness :
  keys_distinct
    (JDict [("brand", JDict [("primary", JStr "#fff"); ("accent", JStr "#000")]);
            ("primary", JStr "x")]).
Proof.
  exact (proj1 (flatten_keys_distinct
                  [("brand", JDict [("primary", JStr "#fff"); ("accent", JStr "#000")]);
                   ("primary", JStr "x")] eq_refl eq_refl)).
Defined.

(** C9: [flatten] returns on every dict, whatever its leaves are and
    however deep they lie ([PyStr.str] is defined on every value that
    [json.load] can return, as [str] is).  Every value it stores is the
    [str] of a value that is not a dict, under the key composed along the
    path of that value; every such value has its key in the result, and
    holds it unless a later leaf composes to the same key.  A list is one
    leaf: where it holds its key, the entry is the rendering of the whole
    list, brackets around the [repr] of its elements; nothing inside a
    list gets a key of its own, so the result has at most one entry per
    leaf. *)
Theorem flatten_leaf_str (items : list (string * json)) (prefix : string) :
  exists flat,
    flatten (JDict items) prefix = Some flat
    /\ (forall k v,
          Dict.get k flat = Some v ->
          exists path leaf,
            In (path, leaf) (leaves (JDict items))
            /\ is_dict leaf = false
            /\ path_key prefix path = k
            /\ v = PyStr.str leaf)
    /\ (forall path leaf,
          In (path, leaf) (leaves (JDict items)) ->
          exists v, Dict.get (path_key prefix path) flat = Some v)
    /\ (forall before path leaf after,
          leaves (JDict items) = (before ++ (path, leaf) :: after)%list ->
          (forall p x, In (p, x) after -> path_key prefix p <> path_key prefix path) ->
          Dict.get (path_key prefix path) flat = Some (PyStr.str leaf))
    /\ (forall before path l after,
          leaves (JDict items) = (before ++ (path, JList l) :: after)%list ->
          (forall p x, In (p, x) after -> path_key prefix p <> path_key prefix path) ->
          Dict.get (path_key prefix path) flat
          = Some ("[" ++ String.concat ", " (List.map PyStr.repr l) ++ "]"))
    /\ List.length flat <= List.length (leaves (JDict items)).
Proof.
  destruct (flatten_get (JDict items) eq_refl prefix) as (flat & Hf & Hnd & Hg).
  assert (Hlast : forall before path leaf after,
            leaves (JDict items) = (before ++ (path, leaf) :: after)%list ->
            (forall p x, In (p, x) after -> path_key prefix p <> path_key prefix path) ->
            Dict.get (path_key prefix path) flat = Some (PyStr.str leaf)).
  { intros before path leaf after E Hn. rewrite Hg. apply get_rev_last.
    exists (List.map (fun pl => (path_key prefix (fst pl), PyStr.str (snd pl))) before),
           (List.map (fun pl => (path_key prefix (fst pl), PyStr.str (snd pl))) after).
    split.
    - unfold entries. rewrite E, map_app. reflexivity.
    - rewrite map_map. cbn [fst]. intros Hin.
      apply in_map_iff in Hin as ([p x] & Hk & Hin). now apply (Hn p x). }
  assert (Hkeys : forall k, In k (Dict.keys flat) ->
                            In k (List.map fst (entries (JDict items) prefix))).
  { intros k Hin.
    destruct (Dict.get k (rev (entries (JDict items) prefix))) as [v|] eqn:E.
    - apply get_in, in_rev in E. apply in_map_iff. now exists (k, v).
    - rewrite <- Hg in E. apply get_none_keys in E. contradiction. }
  exists flat. split; [exact Hf|]. split; [|split; [|split; [|split]]].
  - intros k v Hk. rewrite Hg in Hk. apply get_in, in_rev in Hk.
    unfold entries in Hk. apply in_map_iff in Hk as ([path leaf] & [= <- <-] & Hin).
    exists path, leaf. repeat split; [exact Hin|].
    now apply (leaves_not_dict (JDict items) path leaf).
  - intros path leaf Hin.
    destruct (Dict.get (path_key prefix path) flat) as [v|] eqn:E; [now exists v|].
    exfalso. rewrite Hg in E. apply get_none_keys in E. apply E.
    unfold Dict.keys. rewrite map_rev. apply in_rev. rewrite rev_involutive.
    unfold entries. rewrite map_map. cbn [fst].
    apply in_map_iff. now exists (path, leaf).
  - exact Hlast.
  - intros before path l after E Hn. exact (Hlast before path (JList l) after E Hn).
  - apply (NoDup_incl_length Hnd) in Hkeys. unfold Dict.keys, entries in Hkeys.
    now rewrite !length_map in Hkeys.
Qed.

(** A no-break space, U+00A0, in UTF-8. *)
Definition no_break_space : string :=
  String (ascii_of_nat 194) (String (ascii_of_nat 160) "").

Lemma flatten_leaf_str_witness :
  exists flat,
    flatten (JDict [("n", JInt 3);
                    ("deep", JDict [("ok", JBool true); ("none", JNull)]);
                    ("tags", JList [JStr "a"; JStr no_break_space; JInt 1;
                                    JDict [("k", JNull)]])]) ""
    = Some flat
    /\ Dict.get "deep.none" flat = Some "None"
    /\ Dict.get "tags" flat = Some "['a', '\xa0', 1, {'k': None}]"
    /\ List.length flat <= 4.
Proof.
  destruct (flatten_leaf_str
              [("n", JInt 3);
               ("deep", JDict [("ok", JBool true); ("none", JNull)]);
               ("tags", JList [JStr "a"; JStr no_break_space; JInt 1;
                               JDict [("k", JNull)]])] "")
    as (flat & Hf & _ & _ & Hleaf & Hlist & Hlen).
  exists flat. split; [exact Hf|]. split; [|split; [|exact Hlen]].
  - refine (Hleaf [(["n"], JInt 3); (["deep"; "ok"], JBool true)]
              ["deep"; "none"] JNull [(["tags"], _)] eq_refl _).
    intros p x [[= <- <-]|[]]. discriminate.
  - refine (Hlist [(["n"], JInt 3); (["deep"; "ok"], JBool true);
                   (["deep"; "none"], JNull)]
              ["tags"] _ [] eq_refl _).
    intros p x [].
Defined.

(* ================================================================= *)
(** ** [replace]: one pass over the text *)

Lemma replace_from_skip (old new p s : string) :
  replace_from old new (String.length p) (p ++ s) = replace_from old new 0 s.
Proof.
  induction p as [|c p IH]; simpl; [|exact IH].
  destruct s; reflexivity.
Qed.

Lemma replace_from_match (old new s : string) :
  old <> "" ->
  replace_from old new 0 (old ++ s) = new ++ replace_from old new 0 s.
Proof.
  destruct old as [|c o]; [congruence|]. intros _.
  change (String c o ++ s) with (String c (o ++ s)).
  cbn [replace_from].
  change (String c (o ++ s)) with (String c o ++ s).
  rewrite startswith_app. f_equal.
  cbn [String.length]. rewrite Nat.sub_1_r. cbn [Nat.pred].
  apply replace_from_skip.
Qed.

Lemma replace_from_pass (old new : string) (c : ascii) (s : string) :
  Str.startswith old (String c s) = false ->
  replace_from old new 0 (String c s) = String c (replace_from old new 0 s).
Proof. intros H. cbn [replace_from]. now rewrite H. Qed.

(** A stretch of text without an opening brace is passed over when the
    text searched for starts with one. *)
Lemma replace_from_no_open (old new p s : string) :
  Str.contains open_brace p = false ->
  replace_from (String open_brace old) new 0 (p ++ s)
  = p ++ replace_from (String open_brace old) new 0 s.
Proof.
  induction p as [|c p IH]; intros Hp; [reflexivity|].
  cbn [Str.contains] in Hp. apply orb_false_iff in Hp as [Hc Hp].
  change (String c p ++ s) with (String c (p ++ s)).
  rewrite replace_from_pass.
  - rewrite IH by assumption. reflexivity.
  - cbn [Str.startswith]. rewrite Ascii.eqb_sym, Hc. reflexivity.
Qed.

Lemma brace_free_inv (s : string) :
  brace_free s = true ->
  Str.contains open_brace s = false /\ Str.contains close_brace s = false.
Proof.
  unfold brace_free. intros H. apply andb_true_iff in H as [H1 H2].
  now apply negb_true_iff in H1, H2.
Qed.

(** A token with a brace-free key can only be read in one way. *)
Lemma token_tail_inj (k k' r : string) :
  brace_free k = true -> brace_free k' = true ->
  Str.startswith (k ++ "}}") (k' ++ "}}" ++ r) = true -> k = k'.
Proof.
  intros Hk Hk'.
  apply brace_free_inv in Hk as [_ Hk], Hk' as [_ Hk'].
  revert k' Hk'. induction k as [|c k IH]; intros [|c' k'] Hk';
    cbn [Str.contains Str.startswith String.append] in *.
  - reflexivity.
  - apply orb_false_iff in Hk' as [Hc' _]. intros H.
    apply andb_true_iff in H as [H _]. apply Ascii.eqb_eq in H. subst c'.
    discriminate Hc'.
  - apply orb_false_iff in Hk as [Hc _]. intros H.
    apply andb_true_iff in H as [H _]. apply Ascii.eqb_eq in H. subst c.
    discriminate Hc.
  - apply orb_false_iff in Hk as [_ Hk], Hk' as [_ Hk']. intros H.
    apply andb_true_iff in H as [Hc H]. apply Ascii.eqb_eq in Hc. subst c'.
    f_equal. now apply IH.
Qed.

Lemma head_not_open (k r : string) :
  brace_free k = true -> Str.startswith "{" (k ++ "}}" ++ r) = false.
Proof.
  intros Hk. apply brace_free_inv in Hk as [Hk _].
  destruct k as [|c k]; [reflexivity|].
  cbn [Str.contains Str.startswith String.append] in *.
  apply orb_false_iff in Hk as [Hc _].
  unfold open_brace in Hc. rewrite Ascii.eqb_sym, Hc. reflexivity.
Qed.

(** Another key's token is passed over unchanged. *)
Lemma replace_from_other_token (k k' v r : string) :
  brace_free k = true -> brace_free k' = true -> k <> k' ->
  replace_from (token k) v 0 (token k' ++ r)
  = token k' ++ replace_from (token k) v 0 r.
Proof.
  intros Hk Hk' Hne. unfold token.
  rewrite !str_app_assoc.
  change ("{{" ++ k' ++ "}}" ++ r) with (String "{" (String "{" (k' ++ "}}" ++ r))).
  change ("{{" ++ k ++ "}}") with (String open_brace (String "{" (k ++ "}}"))).
  rewrite replace_from_pass.
  2:{ cbn [Str.startswith]. unfold open_brace. rewrite !Ascii.eqb_refl. cbn [andb].
      destruct (Str.startswith (k ++ "}}") (k' ++ "}}" ++ r)) eqn:E; [|reflexivity].
      exfalso. apply Hne. eapply token_tail_inj; eassumption. }
  rewrite replace_from_pass.
  2:{ cbn [Str.startswith]. rewrite Ascii.eqb_refl. cbn [andb].
      pose proof (head_not_open k' r Hk') as H.
      destruct (k' ++ "}}" ++ r) as [|c0 s0]; [reflexivity|].
      cbn [Str.startswith] in H |- *.
      destruct (Ascii.eqb "{" c0); [discriminate H | reflexivity]. }
  rewrite <- (str_app_assoc k' "}}" r).
  rewrite replace_from_no_open.
  - rewrite str_app_assoc. reflexivity.
  - rewrite contains_app. apply brace_free_inv in Hk' as [-> _]. reflexivity.
Qed.

(* ================================================================= *)
(** ** [substitute] on proper templates *)

Lemma render_app (a b : template) : render (a ++ b)%list = render a ++ render b.
Proof.
  induction a as [|[c|k] a IH]; simpl; [reflexivity | now rewrite IH |].
  unfold token. now rewrite IH, !str_app_assoc.
Qed.

Lemma render_lits (s : string) : render (lits s) = s.
Proof. induction s as [|c s IH]; simpl; [reflexivity | now rewrite IH]. Qed.

Lemma fill_lits (flat : dict string) (s : string) (t : template) :
  fill flat (lits s ++ t)%list = (lits s ++ fill flat t)%list.
Proof. induction s as [|c s IH]; simpl; [reflexivity | now rewrite IH]. Qed.

Lemma fill_nil (t : template) : fill [] t = t.
Proof. induction t as [|[c|k] t IH]; simpl; now rewrite ?IH. Qed.

(** One pass of [replace] for a key fills the tokens of that key. *)
Lemma replace_token (t : template) (k v : string) :
  proper t = true -> brace_free k = true ->
  replace (token k) v (render t) = render (fill [(k, v)] t).
Proof.
  intros Ht Hk.
  change (replace (token k) v (render t)) with (replace_from (token k) v 0 (render t)).
  induction t as [|[c|k'] t IH].
  - reflexivity.
  - cbn [proper] in Ht. apply andb_true_iff in Ht as [Hc Ht].
    cbn [render fill].
    rewrite replace_from_pass; [rewrite IH by assumption; reflexivity|].
    unfold token. cbn [String.append Str.startswith].
    destruct (Ascii.eqb "{" c) eqn:E; [|reflexivity].
    apply Ascii.eqb_eq in E. subst c. cbn [andb].
    unfold open_brace in Hc. rewrite Ascii.eqb_refl in Hc. apply negb_true_iff in Hc.
    destruct (render t) as [|c0 s0]; [reflexivity|].
    cbn [Str.startswith] in Hc |- *.
    destruct (Ascii.eqb "{" c0); [discriminate Hc | reflexivity].
  - cbn [proper] in Ht. apply andb_true_iff in Ht as [Hk' Ht].
    cbn [render fill Dict.get].
    destruct (String.eqb k k') eqn:E.
    + apply String.eqb_eq in E. subst k'.
      rewrite replace_from_match by discriminate.
      rewrite render_app, render_lits, IH by assumption. reflexivity.
    + apply String.eqb_neq in E.
      rewrite replace_from_other_token by assumption.
      cbn [render]. rewrite IH by assumption. reflexivity.
Qed.

Lemma fill_head_open (flat : dict string) (t : template) :
  Str.startswith "{" (render (fill flat t)) = true ->
  Str.startswith "{" (render t) = true.
Proof.
  destruct t as [|[c|k] t]; cbn [fill render]; [tauto | tauto | intros _; reflexivity].
Qed.

Lemma proper_lits (v : string) (t : template) :
  Str.contains open_brace v = false -> proper t = true -> proper (lits v ++ t)%list = true.
Proof.
  induction v as [|c v IH]; cbn [lits app proper Str.contains]; intros Hv Ht; [assumption|].
  apply orb_false_iff in Hv as [Hc Hv]. rewrite Hc. cbn [andb]. now apply IH.
Qed.

Lemma brace_free_dict_get (flat : dict string) (k v : string) :
  brace_free_dict flat = true -> Dict.get k flat = Some v -> brace_free v = true.
Proof.
  unfold brace_free_dict. intros Hf Hg. apply get_in in Hg.
  rewrite forallb_forall in Hf. specialize (Hf _ Hg). simpl in Hf.
  now apply andb_true_iff in Hf as [_ Hf].
Qed.

(** Filling a proper template with brace-free values leaves it proper. *)
Lemma proper_fill (flat : dict string) (t : template) :
  brace_free_dict flat = true -> proper t = true -> proper (fill flat t) = true.
Proof.
  intros Hf. induction t as [|[c|k] t IH]; intros Ht; cbn [proper fill] in *.
  - reflexivity.
  - apply andb_true_iff in Ht as [Hc Ht]. rewrite (IH Ht), andb_true_r.
    destruct (Ascii.eqb c open_brace); [|reflexivity].
    apply negb_true_iff in Hc. apply negb_true_iff.
    destruct (Str.startswith "{" (render (fill flat t))) eqn:E; [|reflexivity].
    apply fill_head_open in E. congruence.
  - apply andb_true_iff in Ht as [Hk Ht].
    destruct (Dict.get k flat) as [v|] eqn:Eg.
    + apply proper_lits; [|now apply IH].
      apply (brace_free_dict_get _ _ _ Hf) in Eg. now apply brace_free_inv in Eg.
    + cbn [proper]. now rewrite Hk, IH.
Qed.

Lemma fill_step (k v : string) (rest : dict string) (t : template) :
  fill rest (fill [(k, v)] t) = fill ((k, v) :: rest) t.
Proof.
  induction t as [|[c|k'] t IH]; cbn [fill Dict.get].
  - reflexivity.
  - now rewrite IH.
  - destruct (String.eqb k k').
    + now rewrite fill_lits, IH.
    + cbn [fill]. now rewrite IH.
Qed.

(** The loop of [generate] on a proper template, with braces neither in the
    keys nor in the values, fills every token at once. *)
Lemma substitute_render (flat : dict string) (t : template) :
  proper t = true -> brace_free_dict flat = true ->
  substitute (render t) flat = render (fill flat t).
Proof.
  revert t. induction flat as [|[k v] rest IH]; intros t Ht Hf.
  - simpl. now rewrite fill_nil.
  - simpl in Hf. apply andb_true_iff in Hf as [Hkv Hrest].
    apply andb_true_iff in Hkv as [Hk Hv].
    change (substitute (render t) ((k, v) :: rest))
      with (substitute (replace (token k) v (render t)) rest).
    rewrite replace_token by assumption.
    rewrite IH, fill_step; [reflexivity | | assumption].
    apply proper_fill; [|assumption].
    simpl. now rewrite Hk, Hv.
Qed.

Lemma fill_idempotent (flat : dict string) (t : template) :
  fill flat (fill flat t) = fill flat t.
Proof.
  induction t as [|[c|k] t IH]; simpl.
  - reflexivity.
  - now rewrite IH.
  - destruct (Dict.get k flat) as [v|] eqn:E.
    + now rewrite fill_lits, IH.
    + simpl. now rewrite E, IH.
Qed.

Lemma fill_ext (flat flat' : dict string) (t : template) :
  (forall k, Dict.get k flat = Dict.get k flat') -> fill flat t = fill flat' t.
Proof.
  intros H. induction t as [|[c|k] t IH]; simpl; rewrite ?IH, ?H; reflexivity.
Qed.

(* ================================================================= *)
(** ** Cutting a text into a template *)

Lemma leading_token_inv (s key : string) :
  leading_token s = Some key -> exists r, s = token key ++ r.
Proof.
  unfold leading_token.
  destruct (Str.startswith "{{" s) eqn:E; [|discriminate].
  apply startswith_inv in E as [r0 ->].
  change (Str.drop 2 ("{{" ++ r0)) with r0. cbv zeta.
  destruct (Str.startswith "}}" (Str.drop (span_plain r0) r0)) eqn:E2; [|discriminate].
  intros [= <-]. apply startswith_inv in E2 as [r E2].
  exists r. unfold token. rewrite !str_app_assoc, <- E2, take_drop. reflexivity.
Qed.

Lemma drop_all (n : nat) : Str.drop n "" = "".
Proof. destruct n; reflexivity. Qed.

Lemma render_parse_from (s : string) (skip : nat) :
  render (parse_from skip s) = Str.drop skip s.
Proof.
  revert skip. induction s as [|c s IH]; intros skip.
  - now rewrite drop_all.
  - destruct skip as [|n]; cbn [parse_from]; [|apply IH].
    destruct (leading_token (String c s)) as [key|] eqn:E.
    + apply leading_token_inv in E as [r E].
      cbn [render]. rewrite IH.
      change (token key ++ r) with (String "{" ((String "{" (key ++ "}}")) ++ r)) in E.
      injection E as -> ->.
      change (String.length (token key) - 1)
        with (String.length (String "{" (key ++ "}}")) - 0).
      rewrite Nat.sub_0_r.
      change (String "{" ((key ++ "}}") ++ r)) with (String "{" (key ++ "}}") ++ r) at 1.
      rewrite drop_app.
      unfold token. now rewrite !str_app_assoc.
    + cbn [render]. rewrite IH. reflexivity.
Qed.

(** Every text is the rendering of its cutting. *)
Lemma render_parse (s : string) : render (parse s) = s.
Proof. unfold parse. rewrite render_parse_from. now destruct s. Qed.

(** The loop of [generate] on a text whose cutting is proper. *)
Lemma substitute_parse (html : string) (flat : dict string) :
  proper (parse html) = true -> brace_free_dict flat = true ->
  substitute html flat = render (fill flat (parse html)).
Proof.
  intros Hp Hf. rewrite <- (render_parse html) at 1. now apply substitute_render.
Qed.

(* ================================================================= *)
(** ** The scan *)

Lemma str_app_inv_tail (a b c d : string) :
  String.length a = String.length b -> a ++ c = b ++ d -> a = b.
Proof.
  revert b. induction a as [|x a IH]; intros [|y b] Hl E; simpl in *;
    try discriminate; [reflexivity|].
  injection E as -> E. f_equal. apply IH; [lia | assumption].
Qed.

Lemma token_inj (k k' : string) : token k = token k' -> k = k'.
Proof.
  unfold token. intros E. apply str_app_inv_head in E.
  assert (Hl : String.length k = String.length k').
  { apply (f_equal String.length) in E. rewrite !str_length_app in E. simpl in E. lia. }
  eapply str_app_inv_tail; eassumption.
Qed.

Lemma take_span_not_close (r : string) :
  Str.contains close_brace (Str.take (span_not_close r) r) = false.
Proof.
  induction r as [|c r IH]; [reflexivity|].
  cbn [span_not_close]. destruct (Ascii.eqb c close_brace) eqn:E; [reflexivity|].
  cbn [Str.take Str.contains]. now rewrite E, IH.
Qed.

Lemma span_not_close_app (k r : string) :
  Str.contains close_brace k = false ->
  span_not_close (k ++ String close_brace r) = String.length k.
Proof.
  induction k as [|c k IH]; cbn [Str.contains String.append span_not_close String.length].
  - intros _. unfold close_brace. now rewrite Ascii.eqb_refl.
  - intros H. apply orb_false_iff in H as [Hc Hk]. now rewrite Hc, IH.
Qed.

(** What the pattern matches at the start of a text is a token with a key
    that is not empty and has no closing brace. *)
Lemma match_token_inv (s t : string) :
  match_token s = Some t ->
  exists k, t = token k /\ k <> "" /\ Str.contains close_brace k = false.
Proof.
  unfold match_token.
  destruct (Str.startswith "{{" s) eqn:E; [|discriminate].
  cbv zeta. set (r := Str.drop 2 s).
  destruct (Nat.ltb 0 (span_not_close r) && Str.startswith "}}" (Str.drop (span_not_close r) r))
    eqn:E2; [|discriminate].
  intros [= <-]. apply andb_true_iff in E2 as [Hn _]. apply Nat.ltb_lt in Hn.
  exists (Str.take (span_not_close r) r). split; [reflexivity|].
  split; [|apply take_span_not_close].
  destruct r as [|c r']; cbn [span_not_close] in *; [lia|].
  destruct (Ascii.eqb c close_brace); [lia | discriminate].
Qed.

(** And such a token at the start of a text is matched. *)
Lemma match_token_token (k r : string) :
  k <> "" -> Str.contains close_brace k = false ->
  match_token (token k ++ r) = Some (token k).
Proof.
  intros Hne Hk. unfold match_token, token.
  rewrite !str_app_assoc.
  change (Str.startswith "{{" ("{{" ++ k ++ "}}" ++ r)) with true.
  change (Str.drop 2 ("{{" ++ k ++ "}}" ++ r)) with (k ++ "}}" ++ r).
  cbv zeta.
  change (k ++ "}}" ++ r) with (k ++ String close_brace (String "}" r)).
  rewrite span_not_close_app by assumption.
  rewrite drop_app, take_app.
  destruct k as [|c k]; [congruence|]. reflexivity.
Qed.

Lemma findall_from_skip (p s : string) :
  findall_from (String.length p) (p ++ s) = findall_from 0 s.
Proof.
  induction p as [|c p IH]; simpl; [|exact IH].
  destruct s; reflexivity.
Qed.

Lemma findall_from_tokens (s : string) (skip : nat) (t : string) :
  In t (findall_from skip s) ->
  exists k, t = token k /\ k <> "" /\ Str.contains close_brace k = false.
Proof.
  revert skip. induction s as [|c s IH]; intros skip; [intros []|].
  destruct skip as [|n]; cbn [findall_from]; [|apply IH].
  destruct (match_token (String c s)) as [t0|] eqn:E; [|apply IH].
  intros [<-|Hin]; [now apply match_token_inv in E | eapply IH, Hin].
Qed.

Lemma findall_token (k r : string) :
  k <> "" -> Str.contains close_brace k = false ->
  findall (token k ++ r) = token k :: findall r.
Proof.
  intros Hne Hk. unfold findall.
  pose proof (match_token_token k r Hne Hk) as E.
  change (token k ++ r) with (String "{" (String "{" (k ++ "}}") ++ r)) in *.
  cbn [findall_from]. rewrite E. f_equal.
  change (String.length (token k) - 1)
    with (String.length (String "{" (k ++ "}}")) - 0).
  rewrite Nat.sub_0_r. apply findall_from_skip.
Qed.

(** C10: the scan reports only tokens whose key is not empty and has no
    closing brace, so it never reports ["{{}}"] nor a token whose key has a
    closing brace; and it does report a token whose key is not empty and has
    no closing brace. *)
Theorem findall_tokens (s : string) :
  (forall t, In t (findall s) ->
     exists k, t = token k /\ k <> "" /\ Str.contains close_brace k = false)
  /\ ~ In "{{}}" (findall s)
  /\ (forall k, Str.contains close_brace k = true -> ~ In (token k) (findall s))
  /\ (forall k, k <> "" -> Str.contains close_brace k = false ->
        findall (token k ++ s) = token k :: findall s).
Proof.
  assert (H : forall t, In t (findall s) ->
            exists k, t = token k /\ k <> "" /\ Str.contains close_brace k = false).
  { intros t. apply findall_from_tokens. }
  split; [exact H|]. split; [|split].
  - intros Hin. destruct (H _ Hin) as (k & E & Hne & _).
    change "{{}}" with (token "") in E. apply token_inj in E. congruence.
  - intros k Hk Hin. destruct (H _ Hin) as (k' & E & _ & Hk').
    apply token_inj in E. subst k'. congruence.
  - intros k. apply findall_token.
Qed.

Lemma findall_tokens_witness :
  findall "<p>{{}} {{a}b}} {{ok}}</p>" = ["{{ok}}"]
  /\ findall (token "a{b" ++ "{{}}") = [token "a{b"].
Proof.
  split; [reflexivity|].
  rewrite (proj2 (proj2 (proj2 (findall_tokens "{{}}"))) "a{b");
    [reflexivity | discriminate | reflexivity].
Defined.

(** On a proper template the scan reports exactly the tokens with a key
    that is not empty, from left to right. *)
Lemma findall_render (t : template) :
  proper t = true -> findall (render t) = tokens_of t.
Proof.
  induction t as [|[c|k] t IH]; cbn [proper render tokens_of]; intros Ht.
  - reflexivity.
  - apply andb_true_iff in Ht as [Hc Ht]. rewrite <- (IH Ht).
    unfold findall. cbn [findall_from].
    replace (match_token (String c (render t))) with (@None string); [reflexivity|].
    unfold match_token. cbn [Str.startswith].
    destruct (Ascii.eqb "{" c) eqn:E; [|reflexivity].
    apply Ascii.eqb_eq in E. subst c. cbn [andb].
    unfold open_brace in Hc. rewrite Ascii.eqb_refl in Hc. apply negb_true_iff in Hc.
    destruct (render t) as [|c0 s0]; [reflexivity|].
    cbn [Str.startswith] in Hc |- *.
    destruct (Ascii.eqb "{" c0); [discriminate Hc | reflexivity].
  - apply andb_true_iff in Ht as [Hk Ht]. rewrite <- (IH Ht).
    destruct (String.eqb_spec k "") as [->|Hne].
    + reflexivity.
    + apply findall_token; [assumption|]. now apply brace_free_inv in Hk.
Qed.

(* ================================================================= *)
(** ** [substitute]: the claims *)

(** The order in which the keys are taken does not matter. *)
Definition order_independent (html : string) (flat : dict string) : Prop :=
  forall flat', Permutation flat flat' -> substitute html flat' = substitute html flat.

(** The page as the specification describes it: every token whose key is
    in the mapping replaced by the key's value, the values inserted as they
    are, the other tokens left. *)
Definition rendered_as_specified (html : string) (flat : dict string) : Prop :=
  substitute html flat = render (fill flat (parse html)).

Definition idempotent (html : string) (flat : dict string) : Prop :=
  substitute (substitute html flat) flat = substitute html flat.

Lemma brace_free_dict_permutation (flat flat' : dict string) :
  Permutation flat flat' -> brace_free_dict flat = true -> brace_free_dict flat' = true.
Proof.
  unfold brace_free_dict. intros Hp H.
  rewrite forallb_forall in *. intros kv Hin. apply H.
  eapply Permutation_in; [apply Permutation_sym, Hp | exact Hin].
Qed.

(** C2, as stated, fails: the loop replaces one key after the other in the
    text it has so far.  With the template ["{{a}}"] and the mapping
    [{"a": "{{b}}", "b": "X"}], the token brought in by the value of [a] is
    replaced in its turn and the page is ["X"]; with the same entries in the
    other order the page is ["{{b}}"]. *)
Lemma substitute_order_counterexample :
  let flat := [("a", "{{b}}"); ("b", "X")] in
  let flat' := [("b", "X"); ("a", "{{b}}")] in
  flatten (JDict [("a", JStr "{{b}}"); ("b", JStr "X")]) "" = Some flat
  /\ Permutation flat flat'
  /\ substitute "{{a}}" flat = "X"
  /\ substitute "{{a}}" flat' = "{{b}}"
  /\ (order_independent "{{a}}" flat -> False).
Proof.
  cbv zeta. repeat split; try reflexivity.
  - apply perm_swap.
  - intros H. specialize (H [("b", "X"); ("a", "{{b}}")] (perm_swap _ _ _)).
    discriminate H.
Qed.

(** C2 (amended): when every pair of opening braces in the template starts
    a token with a brace-free key, and no key and no value of the mapping
    has a brace, the loop gives the same page in whatever order the keys
    are taken, and that page is the template with every token of a key of
    the mapping replaced by the key's value, inserted as it is. *)
Theorem substitute_order_independent (html : string) (flat flat' : dict string) :
  proper (parse html) = true ->
  brace_free_dict flat = true ->
  NoDup (Dict.keys flat) ->
  Permutation flat flat' ->
  substitute html flat' = substitute html flat
  /\ substitute html flat = render (fill flat (parse html)).
Proof.
  intros Hp Hf Hnd Hperm.
  pose proof (brace_free_dict_permutation _ _ Hperm Hf) as Hf'.
  rewrite !substitute_parse by assumption. split; [|reflexivity].
  f_equal. apply fill_ext. intros k. symmetry. now apply get_permutation.
Qed.

Lemma substitute_order_independent_witness :
  substitute "<h1>{{name}}</h1><p style={c}>{{brand.primary}} {{name}}</p>"
    [("brand.primary", "#fff"); ("name", "Acme")]
  = substitute "<h1>{{name}}</h1><p style={c}>{{brand.primary}} {{name}}</p>"
      [("name", "Acme"); ("brand.primary", "#fff")]
  /\ substitute "<h1>{{name}}</h1><p style={c}>{{brand.primary}} {{name}}</p>"
       [("name", "Acme"); ("brand.primary", "#fff")]
     = "<h1>Acme</h1><p style={c}>#fff Acme</p>".
Proof.
  refine (substitute_order_independent
            "<h1>{{name}}</h1><p style={c}>{{brand.primary}} {{name}}</p>"
            [("name", "Acme"); ("brand.primary", "#fff")]
            [("brand.primary", "#fff"); ("name", "Acme")]
            eq_refl eq_refl _ (perm_swap _ _ _)).
  repeat constructor; simpl; intuition discriminate.
Defined.

(** C3, as stated, fails for the same reason: with the template ["{{a}}"]
    and the mapping [{"a": "{{b}}", "b": "X"}] the template with its
    placeholder replaced by the value of [a] is ["{{b}}"], and the loop
    writes ["X"]. *)
Lemma rendered_as_specified_counterexample :
  let flat := [("a", "{{b}}"); ("b", "X")] in
  flatten (JDict [("a", JStr "{{b}}"); ("b", JStr "X")]) "" = Some flat
  /\ render (fill flat (parse "{{a}}")) = "{{b}}"
  /\ substitute "{{a}}" flat = "X"
  /\ (rendered_as_specified "{{a}}" flat -> False).
Proof.
  cbv zeta. repeat split; try reflexivity.
  intros H. discriminate H.
Qed.

(** C3 (amended): when every pair of opening braces in the template starts
    a token with a brace-free key, and no key and no value of the mapping
    has a brace, the page is the template with every token whose key is in
    the mapping replaced by the key's value and the other tokens left as
    they are, and the scan of the page reports exactly the tokens left
    with a key that is not empty. *)
Theorem substitute_rendered (html : string) (flat : dict string) :
  proper (parse html) = true ->
  brace_free_dict flat = true ->
  rendered_as_specified html flat
  /\ findall (substitute html flat) = tokens_of (fill flat (parse html)).
Proof.
  intros Hp Hf. unfold rendered_as_specified.
  rewrite substitute_parse by assumption. split; [reflexivity|].
  apply findall_render. now apply proper_fill.
Qed.

(** The example of the specification: template ["{{x}} {{y}}"] and
    configuration [{"x": "1"}]. *)
Lemma substitute_rendered_witness :
  flatten (JDict [("x", JStr "1")]) "" = Some [("x", "1")]
  /\ substitute "{{x}} {{y}}" [("x", "1")] = "1 {{y}}"
  /\ findall (substitute "{{x}} {{y}}" [("x", "1")]) = ["{{y}}"].
Proof.
  split; [reflexivity|].
  exact (substitute_rendered "{{x}} {{y}}" [("x", "1")] eq_refl eq_refl).
Defined.

(** C5, as stated, fails: with the template ["{{a}}"] and the mapping
    [{"b": "X", "a": "{{b}}"}] one pass gives ["{{b}}"] and a second pass
    gives ["X"]. *)
Lemma idempotent_counterexample :
  let flat := [("b", "X"); ("a", "{{b}}")] in
  flatten (JDict [("b", JStr "X"); ("a", JStr "{{b}}")]) "" = Some flat
  /\ substitute "{{a}}" flat = "{{b}}"
  /\ substitute (substitute "{{a}}" flat) flat = "X"
  /\ (idempotent "{{a}}" flat -> False).
Proof.
  cbv zeta. repeat split; try reflexivity.
  intros H. discriminate H.
Qed.

(** C5 (amended): when every pair of opening braces in the template starts
    a token with a brace-free key, and no key and no value of the mapping
    has a brace, a second pass with the same mapping changes nothing. *)
Theorem substitute_idempotent (html : string) (flat : dict string) :
  proper (parse html) = true ->
  brace_free_dict flat = true ->
  idempotent html flat.
Proof.
  intros Hp Hf. unfold idempotent.
  rewrite (substitute_parse html flat Hp Hf).
  rewrite substitute_render; [|now apply proper_fill | assumption].
  now rewrite fill_idempotent.
Qed.

Lemma substitute_idempotent_witness :
  idempotent "<p>{{a.b}} and {{missing}}</p>" [("a.b", "hello"); ("c", "unused")].
Proof.
  exact (substitute_idempotent "<p>{{a.b}} and {{missing}}</p>"
           [("a.b", "hello"); ("c", "unused")] eq_refl eq_refl).
Defined.

(* ================================================================= *)
(** ** Sorting the tokens of the warning *)

Definition lt_str (a b : string) : Prop := String.ltb a b = true.

Lemma ltb_compare (a b : string) : lt_str a b <-> String.compare a b = Lt.
Proof.
  unfold lt_str, String.ltb. destruct (String.compare a b); split; congruence.
Qed.

Lemma ascii_compare_trans (x y z : ascii) :
  Ascii.compare x y = Lt -> Ascii.compare y z = Lt -> Ascii.compare x z = Lt.
Proof.
  unfold Ascii.compare. rewrite !N.compare_lt_iff. lia.
Qed.

Lemma compare_refl (a : string) : String.compare a a = Eq.
Proof.
  induction a as [|c a IH]; simpl; [reflexivity|].
  replace (Ascii.compare c c) with Eq; [assumption|].
  unfold Ascii.compare. now rewrite N.compare_refl.
Qed.

Lemma lt_str_irrefl (a : string) : ~ lt_str a a.
Proof. rewrite ltb_compare, compare_refl. discriminate. Qed.

Lemma lt_str_trans (a b c : string) : lt_str a b -> lt_str b c -> lt_str a c.
Proof.
  rewrite !ltb_compare. revert b c.
  induction a as [|x a IH]; intros [|y b] [|z c]; simpl; try congruence.
  destruct (Ascii.compare x y) eqn:Exy; try discriminate;
    destruct (Ascii.compare y z) eqn:Eyz; try discriminate; intros H1 H2.
  - apply Ascii.compare_eq_iff in Exy, Eyz. subst y z.
    replace (Ascii.compare x x) with Eq
      by (unfold Ascii.compare; now rewrite N.compare_refl).
    eapply IH; eassumption.
  - apply Ascii.compare_eq_iff in Exy. subst y. now rewrite Eyz.
  - apply Ascii.compare_eq_iff in Eyz. subst z. now rewrite Exy.
  - now rewrite (ascii_compare_trans _ _ _ Exy Eyz).
Qed.

Lemma leb_lt_or_eq (a b : string) : String.leb a b = true -> a = b \/ lt_str a b.
Proof.
  unfold String.leb. rewrite ltb_compare.
  destruct (String.compare a b) eqn:E; intros H; try discriminate.
  - left. now apply String.compare_eq_iff.
  - now right.
Qed.

Lemma leb_false_lt (a b : string) : String.leb a b = false -> lt_str b a.
Proof.
  unfold String.leb. rewrite ltb_compare, (String.compare_antisym a b).
  destruct (String.compare b a); simpl; congruence.
Qed.

Lemma insert_sorted_in (x t : string) (l : list string) :
  In t (insert_sorted x l) <-> t = x \/ In t l.
Proof.
  induction l as [|y l IH]; simpl.
  - intuition.
  - destruct (String.leb x y); simpl; [intuition|].
    rewrite IH. intuition.
Qed.

Lemma sorted_in (t : string) (l : list string) : In t (sorted l) <-> In t l.
Proof.
  induction l as [|x l IH]; simpl; [reflexivity|].
  rewrite insert_sorted_in, IH. intuition.
Qed.

Lemma insert_sorted_strict (x : string) (l : list string) :
  StronglySorted lt_str l -> ~ In x l -> StronglySorted lt_str (insert_sorted x l).
Proof.
  induction 1 as [|y l Hl IH Hy]; intros Hx; simpl.
  - constructor; constructor.
  - destruct (String.leb x y) eqn:E.
    + apply leb_lt_or_eq in E as [->|Hxy]; [exfalso; apply Hx; now left|].
      constructor; [now constructor|].
      constructor; [assumption|].
      eapply Forall_impl; [|exact Hy]. intros z Hz. eapply lt_str_trans; eassumption.
    + apply leb_false_lt in E. constructor.
      * apply IH. intros Hin. apply Hx. now right.
      * apply Forall_forall. intros z Hz. apply insert_sorted_in in Hz as [->|Hz].
        -- assumption.
        -- rewrite Forall_forall in Hy. now apply Hy.
Qed.

Lemma sorted_strict (l : list string) : NoDup l -> StronglySorted lt_str (sorted l).
Proof.
  induction 1 as [|x l Hx Hl IH]; simpl; [constructor|].
  apply insert_sorted_strict; [assumption|]. now rewrite sorted_in.
Qed.

(** A strictly increasing list is determined by its elements: whatever the
    order in which the set is listed, sorting gives the same lines. *)
Lemma strictly_sorted_unique (l1 l2 : list string) :
  StronglySorted lt_str l1 -> StronglySorted lt_str l2 ->
  (forall t, In t l1 <-> In t l2) -> l1 = l2.
Proof.
  intros H1. revert l2.
  induction H1 as [|x l1 Hl1 IH Hx]; intros l2 H2 Hin.
  - destruct l2 as [|y l2]; [reflexivity|].
    exfalso. apply (proj2 (Hin y)). now left.
  - destruct H2 as [|y l2 Hl2 Hy].
    + exfalso. apply (proj1 (Hin x)). now left.
    + rewrite Forall_forall in Hx, Hy.
      assert (x = y).
      { destruct (proj1 (Hin x) (or_introl eq_refl)) as [E|Hx2]; [now symmetry|].
        destruct (proj2 (Hin y) (or_introl eq_refl)) as [E|Hy1]; [assumption|].
        exfalso. apply (lt_str_irrefl x).
        eapply lt_str_trans; [apply Hx, Hy1 | apply Hy, Hx2]. }
      subst y. f_equal. apply IH; [assumption|].
      intros t. split; intros Ht.
      * destruct (proj1 (Hin t) (or_intror Ht)) as [E|H]; [|assumption].
        subst t. exfalso. apply (lt_str_irrefl x). now apply Hx.
      * destruct (proj2 (Hin t) (or_intror Ht)) as [E|H]; [|assumption].
        subst t. exfalso. apply (lt_str_irrefl x). now apply Hy.
Qed.

Lemma sorted_set_order (remaining listing : list string) :
  NoDup listing -> (forall t, In t listing <-> In t remaining) ->
  sorted listing = sorted (py_set remaining).
Proof.
  intros Hnd Hin. apply strictly_sorted_unique.
  - now apply sorted_strict.
  - apply sorted_strict, NoDup_nodup.
  - intros t. unfold py_set. rewrite !sorted_in, nodup_In. apply Hin.
Qed.

(* ================================================================= *)
(** ** Running the script *)

Lemma bind_ok {A B : Type} (c : io A) (k : A -> io B) (w w' : world) (a : A) :
  c w = (Ok a, w') -> bind c k w = k a w'.
Proof. unfold bind. now intros ->. Qed.

Lemma bind_stop {A B : Type} (c : io A) (k : A -> io B) (w w' : world) (s : stop) :
  c w = (Stop s, w') -> bind c k w = (Stop s, w').
Proof. unfold bind. now intros ->. Qed.

Lemma for_each_print (l : list string) (w : world) :
  for_each l print w = (Ok tt, World (fs w) (stdout w ++ l)).
Proof.
  revert w. induction l as [|x l IH]; intros w; simpl.
  - rewrite app_nil_r. now destruct w.
  - unfold bind, print at 1. rewrite IH. simpl. now rewrite <- app_assoc.
Qed.

Lemma path_exists_run (path : string) (w : world) :
  path_exists path w
  = (Ok (match fs w path with Some _ => true | None => false end), w).
Proof. reflexivity. Qed.

Lemma validate_no_config (slug : string) (w : world) :
  fs w (config_path slug) = None ->
  validate_inputs slug w
  = (Stop (SysExit 1), World (fs w) (stdout w ++ config_not_found slug)).
Proof.
  intros H. unfold validate_inputs.
  rewrite (bind_ok _ _ _ _ _ (path_exists_run _ w)), H. cbn [negb].
  apply bind_stop. unfold bind. now rewrite for_each_print.
Qed.

Lemma validate_no_template (slug : string) (w : world) (n : node) :
  fs w (config_path slug) = Some n ->
  fs w template_path = None ->
  validate_inputs slug w
  = (Stop (SysExit 1), World (fs w) (stdout w ++ template_not_found)).
Proof.
  intros H H'. unfold validate_inputs.
  rewrite (bind_ok _ _ _ _ _ (path_exists_run _ w)), H. cbn [negb].
  rewrite (bind_ok _ _ w w tt) by reflexivity.
  rewrite (bind_ok _ _ _ _ _ (path_exists_run _ w)), H'. cbn [negb].
  unfold bind. now rewrite for_each_print.
Qed.

Lemma validate_ok (slug : string) (w : world) (n m : node) :
  fs w (config_path slug) = Some n ->
  fs w template_path = Some m ->
  validate_inputs slug w = (Ok tt, w).
Proof.
  intros H H'. unfold validate_inputs.
  rewrite (bind_ok _ _ _ _ _ (path_exists_run _ w)), H. cbn [negb].
  rewrite (bind_ok _ _ w w tt) by reflexivity.
  rewrite (bind_ok _ _ _ _ _ (path_exists_run _ w)), H'. reflexivity.
Qed.

Lemma validate_ok_inv (slug : string) (w w' : world) (u : unit) :
  validate_inputs slug w = (Ok u, w') ->
  w' = w /\ fs w (config_path slug) <> None /\ fs w template_path <> None.
Proof.
  destruct (fs w (config_path slug)) as [n|] eqn:Hc.
  - destruct (fs w template_path) as [m|] eqn:Ht.
    + rewrite (validate_ok slug w n m Hc Ht). intros [= _ <-].
      repeat split; discriminate.
    + rewrite (validate_no_template slug w n Hc Ht). discriminate.
  - rewrite (validate_no_config slug w Hc). discriminate.
Qed.

Lemma read_text_run (path : string) (w : world) :
  read_text path w
  = match fs w path with
    | Some (File content) =>
        match decode_text content with
        | Some text => (Ok text, w)
        | None => (Stop (Raised UnicodeDecodeError), w)
        end
    | Some (Dir _) => (Stop (Raised IsADirectoryError), w)
    | None => (Stop (Raised FileNotFoundError), w)
    end.
Proof.
  unfold read_text, bind, stat. destruct (fs w path) as [[c|e]|]; try reflexivity.
  destruct (decode_text c); reflexivity.
Qed.

Lemma warn_missed_run (html : string) (w : world) :
  warn_missed html w
  = (Ok tt, World (fs w)
              (stdout w ++ match findall html with
                           | [] => []
                           | _ => warning (findall html)
                           end)).
Proof.
  unfold warn_missed. destruct (findall html) eqn:E.
  - unfold ret. rewrite app_nil_r. now destruct w.
  - apply for_each_print.
Qed.


Lemma audio_dst_not_out_path (slug : string) :
  String.eqb (out_path slug) (audio_dst slug) = false.
Proof.
  apply String.eqb_neq. unfold out_path, audio_dst. intros E.
  apply str_app_inv_head in E. discriminate E.
Qed.

(** *** The directories above the paths of the script *)

Definition clients_dir : string := "clients".



Lemma ancestors_from_plain (seen s : string) :
  Str.contains "/"%char s = false -> ancestors_from seen s = [].
Proof.
  revert seen. induction s as [|c s IH]; intros seen H; [reflexivity|].
  cbn [Str.contains] in H. apply orb_false_iff in H as [Hc Hs].
  cbn [ancestors_from]. rewrite Hc. cbn [andb]. now apply IH.
Qed.

Lemma ancestors_from_app (a b seen : string) :
  Str.contains "/"%char a = false -> seen ++ a <> "" ->
  ancestors_from seen (a ++ String "/" b)
  = (seen ++ a) :: ancestors_from (seen ++ a ++ "/") b.
Proof.
  revert seen. induction a as [|c a IH]; intros seen Ha Hne.
  - rewrite str_app_nil_r in *. cbn [String.append ancestors_from].
    rewrite Ascii.eqb_refl. apply String.eqb_neq in Hne. rewrite Hne. reflexivity.
  - cbn [Str.contains] in Ha. apply orb_false_iff in Ha as [Hc Ha].
    cbn [String.append ancestors_from]. rewrite Hc. cbn [andb].
    rewrite IH; [|assumption|].
    + now rewrite !str_app_assoc.
    + rewrite str_app_assoc. exact Hne.
Qed.

Lemma ancestors_out_dir (slug : string) :
  Str.contains "/"%char slug = false -> ancestors (out_dir slug) = [clients_dir].
Proof.
  intros H. unfold ancestors, out_dir.
  change ("clients/" ++ slug) with ("clients" ++ String "/" slug).
  rewrite ancestors_from_app by (reflexivity || discriminate).
  now rewrite ancestors_from_plain.
Qed.

Lemma ancestors_below_out_dir (slug name : string) :
  Str.contains "/"%char slug = false -> Str.contains "/"%char name = false ->
  ancestors (out_dir slug ++ String "/" name) = [clients_dir; out_dir slug].
Proof.
  intros H Hn. unfold ancestors, out_dir.
  change (("clients/" ++ slug) ++ String "/" name)
    with ("clients" ++ String "/" (slug ++ String "/" name)).
  rewrite ancestors_from_app by (reflexivity || discriminate).
  rewrite ancestors_from_app; [|assumption | discriminate].
  now rewrite ancestors_from_plain.
Qed.

Lemma ancestors_out_path (slug : string) :
  Str.contains "/"%char slug = false ->
  ancestors (out_path slug) = [clients_dir; out_dir slug].
Proof. intros H. now apply (ancestors_below_out_dir slug "index.html"). Qed.

Lemma ancestors_audio_dst (slug : string) :
  Str.contains "/"%char slug = false ->
  ancestors (audio_dst slug) = [clients_dir; out_dir slug].
Proof. intros H. now apply (ancestors_below_out_dir slug "audio"). Qed.

(** A directory above a path has a shorter name. *)
Lemma ancestors_from_shorter (rest seen a : string) :
  In a (ancestors_from seen rest) ->
  String.length a < String.length seen + String.length rest.
Proof.
  revert seen. induction rest as [|c rest IH]; intros seen; [intros []|].
  cbn [ancestors_from String.length].
  assert (Hrec : In a (ancestors_from (seen ++ String c "") rest) ->
                 String.length a < String.length seen + S (String.length rest)).
  { intros Hin. apply IH in Hin. rewrite str_length_app in Hin. simpl in Hin. lia. }
  destruct (Ascii.eqb c "/" && negb (String.eqb seen "")); [|exact Hrec].
  intros [<-|Hin]; [lia | now apply Hrec].
Qed.

Lemma ancestors_shorter (path a : string) :
  In a (ancestors path) -> String.length a < String.length path.
Proof. intros H. now apply ancestors_from_shorter in H. Qed.

Lemma need_dirs_world (dirs : list string) (w w' : world) (r : result unit) :
  need_dirs dirs w = (r, w') -> w' = w.
Proof.
  induction dirs as [|d dirs IH]; cbn [need_dirs]; [now intros [= _ <-]|].
  unfold bind, stat, raise. destruct (fs w d) as [[c|e]|]; try (now intros [= _ <-]).
  exact IH.
Qed.

Lemma write_text_inv (path text : string) (w w' : world) (u : unit) :
  write_text path text w = (Ok u, w') -> fs w' path = Some (File text).
Proof.
  unfold write_text. unfold bind at 1.
  destruct (need_dirs (ancestors path) w) as [[[]|s] w1] eqn:E; [|discriminate].
  apply need_dirs_world in E. subst w1.
  unfold bind, stat, put, raise.
  destruct (fs w path) as [[c|e]|]; try discriminate;
    destruct (utf8_valid text); try discriminate;
    intros [= _ <-]; cbn [fs]; unfold fs_set; now rewrite String.eqb_refl.
Qed.

Lemma write_output_inv (slug html : string) (w w' : world) (u : unit) :
  write_output slug html w = (Ok u, w') -> fs w' (out_path slug) = Some (File html).
Proof.
  unfold write_output. unfold bind at 1.
  destruct (makedirs (out_dir slug) w) as [[[]|s] w1]; [|discriminate].
  apply write_text_inv.
Qed.




(** *** Steps that leave a path alone

    [keeps p c]: the step [c] does not change what is at [p], only adds to
    the console, and does not end the run with [sys.exit]. *)

Definition keeps (p : string) {A : Type} (c : io A) : Prop :=
  forall w,
    fs (snd (c w)) p = fs w p
    /\ (exists tail, stdout (snd (c w)) = (stdout w ++ tail)%list)
    /\ forall code, fst (c w) <> Stop (SysExit code).

Lemma keeps_ret (p : string) {A : Type} (a : A) : keeps p (ret a).
Proof.
  intros w. simpl. repeat split; [|discriminate].
  exists []. now rewrite app_nil_r.
Qed.

Lemma keeps_raise (p : string) {A : Type} (e : exn) : keeps p (@raise A e).
Proof.
  intros w. simpl. repeat split; [|discriminate].
  exists []. now rewrite app_nil_r.
Qed.

Lemma keeps_print (p text : string) : keeps p (print text).
Proof.
  intros w. simpl. repeat split; [|discriminate]. now exists [text].
Qed.

Lemma keeps_stat (p path : string) : keeps p (stat path).
Proof.
  intros w. simpl. repeat split; [|discriminate].
  exists []. now rewrite app_nil_r.
Qed.

Lemma keeps_put (p path : string) (n : option node) :
  String.eqb p path = false -> keeps p (put path n).
Proof.
  intros H w. simpl. unfold fs_set. rewrite H. repeat split; [|discriminate].
  exists []. now rewrite app_nil_r.
Qed.

Lemma keeps_bind (p : string) {A B : Type} (c : io A) (k : A -> io B) :
  keeps p c -> (forall a, keeps p (k a)) -> keeps p (bind c k).
Proof.
  intros Hc Hk w. unfold bind.
  destruct (Hc w) as (Hfs & [t Hout] & Hexit).
  destruct (c w) as [[a|s] w1] eqn:E; simpl in *.
  - destruct (Hk a w1) as (Hfs' & [t' Hout'] & Hexit').
    repeat split.
    + congruence.
    + exists (t ++ t')%list. now rewrite Hout', Hout, app_assoc.
    + assumption.
  - repeat split; try assumption.
    + now exists t.
    + intros code [= ->]. now apply (Hexit code).
Qed.

Lemma keeps_need_dirs (p : string) (dirs : list string) : keeps p (need_dirs dirs).
Proof.
  induction dirs as [|d dirs IH]; cbn [need_dirs]; [apply keeps_ret|].
  apply keeps_bind; [apply keeps_stat|].
  intros [[c|e]|]; [apply keeps_raise | exact IH | apply keeps_raise].
Qed.

Lemma keeps_make_dirs (p : string) (dirs : list string) :
  (forall d, In d dirs -> String.eqb p d = false) -> keeps p (make_dirs dirs).
Proof.
  induction dirs as [|d dirs IH]; intros H; cbn [make_dirs]; [apply keeps_ret|].
  assert (IH' : keeps p (make_dirs dirs)) by (apply IH; intros; apply H; now right).
  apply keeps_bind; [apply keeps_stat|].
  intros [[c|e]|]; [apply keeps_raise | exact IH' |].
  apply keeps_bind; [|intros _; exact IH'].
  apply keeps_put. apply H. now left.
Qed.

Ltac keeps_step :=
  repeat first
    [ apply keeps_make_dirs; assumption
    | apply keeps_need_dirs
    | apply keeps_bind; [|intros ?]
    | apply keeps_ret | apply keeps_raise | apply keeps_print | apply keeps_stat
    | apply keeps_put; assumption
    | match goal with
      | |- keeps _ (match ?x with _ => _ end) => destruct x
      | |- keeps _ (if ?x then _ else _) => destruct x
      end ].

Lemma out_path_above_audio_dst (slug d : string) :
  In d (ancestors (audio_dst slug)) -> String.eqb (out_path slug) d = false.
Proof.
  intros H. apply ancestors_shorter in H. apply String.eqb_neq. intros <-.
  unfold audio_dst, out_path in H. rewrite !str_length_app in H. simpl in H. lia.
Qed.

Lemma keeps_copy_audio (slug : string) : keeps (out_path slug) (copy_audio slug).
Proof.
  pose proof (audio_dst_not_out_path slug) as H.
  pose proof (out_path_above_audio_dst slug) as Ha.
  unfold copy_audio, path_exists, rmtree, copytree, listdir.
  keeps_step.
Qed.

Lemma keeps_report_done (slug : string) : keeps (out_path slug) (report_done slug).
Proof. unfold report_done. keeps_step. Qed.

Lemma keeps_finish (slug : string) :
  keeps (out_path slug) (bind (copy_audio slug) (fun _ => report_done slug)).
Proof.
  apply keeps_bind; [apply keeps_copy_audio | intros _; apply keeps_report_done].
Qed.

(* ================================================================= *)
(** ** [generate]: the claims *)

Section Run.

Variable json_loads : string -> option json.


Lemma load_config_inv (slug : string) (flat : dict string) (w w' : world) :
  load_config json_loads slug w = (Ok flat, w') ->
  w' = w
  /\ exists cbytes ctext config,
       fs w (config_path slug) = Some (File cbytes)
       /\ decode_text cbytes = Some ctext
       /\ json_loads ctext = Some config
       /\ flatten config "" = Some flat.
Proof.
  unfold load_config, json_load. unfold bind at 1 2. rewrite read_text_run.
  destruct (fs w (config_path slug)) as [[cbytes|e]|]; try discriminate.
  destruct (decode_text cbytes) as [ctext|] eqn:Hd; try discriminate.
  destruct (json_loads ctext) as [config|] eqn:Hj; try discriminate.
  cbn [ret raise].
  destruct (flatten config "") as [flat'|] eqn:Hf; try discriminate.
  intros [= <- <-]. split; [reflexivity|]. now exists cbytes, ctext, config.
Qed.


Lemma load_template_inv (ttext : string) (w w' : world) :
  load_template w = (Ok ttext, w') ->
  w' = w
  /\ exists tbytes,
       fs w template_path = Some (File tbytes) /\ decode_text tbytes = Some ttext.
Proof.
  unfold load_template. rewrite read_text_run.
  destruct (fs w template_path) as [[t|e]|]; try discriminate.
  destruct (decode_text t) as [text|] eqn:Hd; try discriminate.
  intros [= <- <-]. split; [reflexivity|]. now exists t.
Qed.


(** A run that returns has read a configuration and a template and has
    left the page made from them at the output path. *)
Lemma generate_ok_inv (slug : string) (w w' : world) (u : unit) :
  generate json_loads slug w = (Ok u, w') ->
  exists cbytes ctext tbytes ttext config flat,
    fs w (config_path slug) = Some (File cbytes)
    /\ decode_text cbytes = Some ctext
    /\ json_loads ctext = Some config
    /\ flatten config "" = Some flat
    /\ fs w template_path = Some (File tbytes)
    /\ decode_text tbytes = Some ttext
    /\ fs w' (out_path slug) = Some (File (substitute ttext flat)).
Proof.
  unfold generate. unfold bind at 1.
  destruct (validate_inputs slug w) as [[[]|s] w1] eqn:E1; [|discriminate].
  apply validate_ok_inv in E1 as (-> & _ & _).
  unfold bind at 1.
  destruct (load_config json_loads slug w) as [[flat|s] w1] eqn:E2; [|discriminate].
  apply load_config_inv in E2 as (-> & cbytes & ctext & config & Hc & Hdc & Hj & Hf).
  unfold bind at 1.
  destruct (load_template w) as [[ttext|s] w1] eqn:E3; [|discriminate].
  apply load_template_inv in E3 as (-> & tbytes & Ht & Hdt).
  cbv zeta. rewrite (bind_ok _ _ _ _ _ (warn_missed_run _ w)).
  unfold bind at 1.
  match goal with |- context [write_output ?a ?b ?c] =>
    destruct (write_output a b c) as [[[]|s] w2] eqn:E4 end; [|discriminate].
  apply write_output_inv in E4.
  intros E5. exists cbytes, ctext, tbytes, ttext, config, flat.
  repeat split; try assumption.
  destruct (keeps_finish slug w2) as (Hfs & _ & _).
  fold (bind (copy_audio slug) (fun _ => report_done slug)) in E5.
  rewrite E5 in Hfs. simpl in Hfs. congruence.
Qed.



(** C8: two runs for the same client that read the same configuration text
    and the same template text, and return, leave the same page text at the
    output path, whatever else differs between the two file systems and
    consoles. *)
Theorem generate_deterministic (slug ctext ttext : string) (w1 w2 w1' w2' : world) :
  fs w1 (config_path slug) = Some (File ctext) ->
  fs w2 (config_path slug) = Some (File ctext) ->
  fs w1 template_path = Some (File ttext) ->
  fs w2 template_path = Some (File ttext) ->
  generate json_loads slug w1 = (Ok tt, w1') ->
  generate json_loads slug w2 = (Ok tt, w2') ->
  exists html,
    fs w1' (out_path slug) = Some (File html)
    /\ fs w2' (out_path slug) = Some (File html).
Proof.
  intros Hc1 Hc2 Ht1 Ht2 H1 H2.
  apply generate_ok_inv in H1
    as (b1 & c1 & u1 & t1 & cfg1 & flat1 & Hc1' & Hd1 & Hj1 & Hf1 & Ht1' & He1 & Hp1).
  apply generate_ok_inv in H2
    as (b2 & c2 & u2 & t2 & cfg2 & flat2 & Hc2' & Hd2 & Hj2 & Hf2 & Ht2' & He2 & Hp2).
  assert (b1 = ctext) by congruence. assert (b2 = ctext) by congruence.
  assert (u1 = ttext) by congruence. assert (u2 = ttext) by congruence.
  subst. assert (c1 = c2) by congruence. assert (t1 = t2) by congruence.
  subst. assert (cfg1 = cfg2) by congruence. subst.
  assert (flat1 = flat2) by congruence. subst.
  exists (substitute t2 flat2). now split.
Qed.

End Run.

(* ================================================================= *)
(** ** A concrete run

    A file system with one client, [acme], whose configuration is
    [{"x": "1"}], and the template ["{{x}} {{y}}"]. *)

Definition demo_config_text : string :=
  let q := String PyStr.dquote "" in
  "{" ++ q ++ "x" ++ q ++ ": " ++ q ++ "1" ++ q ++ "}".

Definition demo_loads (text : string) : option json :=
  if String.eqb text demo_config_text then Some (JDict [("x", JStr "1")]) else None.

Definition demo_fs (path : string) : option node :=
  if String.eqb path "configs/acme.json" then Some (File demo_config_text)
  else if String.eqb path "template/TEMPLATE.html" then Some (File "{{x}} {{y}}")
  else None.

Definition demo_world : world := World demo_fs [].

(** The same inputs in another state: a page from an earlier run, an audio
    directory, and text already on the console. *)
Definition demo_world_again : world :=
  World (fun path =>
           if String.eqb path "clients/acme/index.html" then Some (File "old page")
           else if String.eqb path "clients/acme" then Some (Dir [])
           else if String.eqb path "clients" then Some (Dir [])
           else if String.eqb path "configs/acme/audio"
                then Some (Dir [("intro.mp3", File "..."); ("notes.txt", File "...")])
           else demo_fs path)
        ["earlier output"].


Example demo_run :
  fst (generate demo_loads "acme" demo_world_again) = Ok tt
  /\ fs (snd (generate demo_loads "acme" demo_world_again)) "clients/acme/index.html"
     = Some (File "1 {{y}}")
  /\ fs (snd (generate demo_loads "acme" demo_world_again)) "clients/acme/audio"
     = Some (Dir [("intro.mp3", File "..."); ("notes.txt", File "...")])
  /\ firstn 4 (stdout (snd (generate demo_loads "acme" demo_world_again)))
     = ["earlier output";
        Str.newline ++ "  Warning: 1 unreplaced placeholder(s):";
        "    {{y}}";
        Str.newline ++ "  Audio copied (1 file(s)) → clients/acme/audio/"].
Proof. repeat split; reflexivity. Qed.

(** The same inputs where [clients] is a regular file: the warning is
    printed, then [os.makedirs] raises and no page is written. *)
Definition demo_world_clients_file : world :=
  World (fun path =>
           if String.eqb path "clients" then Some (File "not a directory")
           else demo_fs path)
        [].

Example demo_run_clients_file :
  fst (generate demo_loads "acme" demo_world_clients_file)
  = Stop (Raised NotADirectoryError)
  /\ fs (snd (generate demo_loads "acme" demo_world_clients_file))
       "clients/acme/index.html" = None
  /\ stdout (snd (generate demo_loads "acme" demo_world_clients_file))
     = [Str.newline ++ "  Warning: 1 unreplaced placeholder(s):"; "    {{y}}"].
Proof. repeat split; reflexivity. Qed.

(** Reading turns the line ends of a file into line feeds and refuses
    bytes that are not UTF-8; writing refuses a lone surrogate (here
    U+D800) and leaves the file it has opened empty. *)
Example decode_text_line_ends :
  decode_text ("a" ++ String carriage_return (String line_feed "b")
                 ++ String carriage_return "c")
  = Some ("a" ++ String line_feed "b" ++ String line_feed "c").
Proof. reflexivity. Qed.

Example read_text_not_utf8 :
  fst (read_text "page"
         (World (fun _ => Some (File (String (ascii_of_nat 255) ""))) []))
  = Stop (Raised UnicodeDecodeError).
Proof. reflexivity. Qed.

Example write_text_surrogate :
  let text :=
    String (ascii_of_nat 237) (String (ascii_of_nat 160) (String (ascii_of_nat 128) "")) in
  fst (write_text "page" text (World (fun _ => None) []))
  = Stop (Raised UnicodeEncodeError)
  /\ fs (snd (write_text "page" text (World (fun _ => None) []))) "page"
     = Some (File "").
Proof. split; reflexivity. Qed.



Lemma generate_deterministic_witness :
  exists html,
    fs (snd (generate demo_loads "acme" demo_world)) "clients/acme/index.html"
    = Some (File html)
    /\ fs (snd (generate demo_loads "acme" demo_world_again)) "clients/acme/index.html"
       = Some (File html).
Proof.
  exact (generate_deterministic demo_loads "acme" demo_config_text "{{x}} {{y}}"
           demo_world demo_world_again
           (snd (generate demo_loads "acme" demo_world))
           (snd (generate demo_loads "acme" demo_world_again))
           eq_refl eq_refl eq_refl eq_refl eq_refl eq_refl).
Defined.

(* ################################################################# *)
(** * Part III: further properties of the script *)

(* ================================================================= *)
(** ** [flatten]: colliding keys, order, prefixes *)

(** X1: [flatten] returns on every dict, under any prefix; no key is
    repeated in what it returns; and a key holds the text of the last
    leaf, in document order, whose path composes to that key. *)
Theorem flatten_last_write_wins (items : list (string * json)) (prefix : string) :
  exists flat,
    flatten (JDict items) prefix = Some flat
    /\ NoDup (Dict.keys flat)
    /\ forall k v,
         Dict.get k flat = Some v
         <-> exists before path leaf after,
               leaves (JDict items) = (before ++ (path, leaf) :: after)%list
               /\ path_key prefix path = k
               /\ PyStr.str leaf = v
               /\ forall p l, In (p, l) after -> path_key prefix p <> k.
Proof.
  destruct (flatten_get (JDict items) eq_refl prefix) as (flat & Hf & Hnd & Hg).
  exists flat. split; [exact Hf|]. split; [exact Hnd|].
  intros k v. rewrite Hg, get_rev_last. unfold entries. split.
  - intros (l1 & l2 & E & Hn).
    apply map_eq_app in E as (before & rest & E & <- & E2).
    apply map_eq_cons in E2 as ([path leaf] & after & -> & [= <- <-] & <-).
    exists before, path, leaf, after. repeat split; try assumption.
    intros p l Hin Hk. apply Hn. rewrite map_map. simpl.
    apply in_map_iff. now exists (p, l).
  - intros (before & path & leaf & after & E & <- & <- & Hn).
    exists (List.map (fun pl => (path_key prefix (fst pl), PyStr.str (snd pl))) before),
           (List.map (fun pl => (path_key prefix (fst pl), PyStr.str (snd pl))) after).
    split.
    + rewrite E, map_app. reflexivity.
    + rewrite map_map. simpl. intros Hin.
      apply in_map_iff in Hin as ([p l] & Hk & Hin). now apply (Hn p l).
Qed.

Lemma set_fresh {V : Type} (k : string) (v : V) (d : dict V) :
  ~ In k (Dict.keys d) -> Dict.set k v d = (d ++ [(k, v)])%list.
Proof.
  unfold Dict.keys. induction d as [|[k0 v0] d IH]; simpl; intros Hn; [reflexivity|].
  destruct (String.eqb k0 k) eqn:E.
  - apply String.eqb_eq in E. exfalso. apply Hn. now left.
  - rewrite IH; [reflexivity|]. intros Hin. apply Hn. now right.
Qed.

Lemma update_fresh {V : Type} (other d : dict V) :
  NoDup (Dict.keys d ++ Dict.keys other) -> Dict.update d other = (d ++ other)%list.
Proof.
  unfold Dict.update, Dict.keys. revert d.
  induction other as [|[k v] other IH]; intros d Hnd; simpl.
  - now rewrite app_nil_r.
  - rewrite set_fresh.
    + rewrite IH; [now rewrite <- app_assoc|].
      rewrite map_app. simpl. now rewrite <- app_assoc.
    + intros Hin. simpl in Hnd. apply NoDup_remove_2 in Hnd.
      apply Hnd. apply in_or_app. now left.
Qed.

Lemma flatten_loop_exact (prefix : string) (items : list (string * json)) :
  Forall (fun kv => is_dict (snd kv) = true ->
            forall prefix, NoDup (List.map fst (entries (snd kv) prefix)) ->
              flatten (snd kv) prefix = Some (entries (snd kv) prefix))
         items ->
  forall result,
    NoDup (Dict.keys result ++ List.map fst (entries (JDict items) prefix)) ->
    flatten_loop prefix items result
    = Some (result ++ entries (JDict items) prefix)%list.
Proof.
  induction 1 as [|[key value] rest Hv _ IH]; intros result Hnd.
  - simpl. now rewrite app_nil_r.
  - simpl in Hv. simpl flatten_loop. rewrite entries_cons in *.
    rewrite map_app, app_assoc in Hnd.
    destruct (is_dict value) eqn:Ed.
    + rewrite (Hv eq_refl).
      2:{ apply NoDup_app_remove_r in Hnd. now apply NoDup_app_remove_l in Hnd. }
      rewrite update_fresh by (now apply NoDup_app_remove_r in Hnd).
      rewrite IH; [now rewrite <- app_assoc|].
      unfold Dict.keys. now rewrite map_app.
    + rewrite set_fresh.
      2:{ apply NoDup_app_remove_r in Hnd. simpl in Hnd.
          apply NoDup_remove_2 in Hnd. now rewrite app_nil_r in Hnd. }
      rewrite IH; [now rewrite <- app_assoc|].
      unfold Dict.keys. now rewrite map_app.
Qed.

(** When no two leaves compose to the same key, [flatten] returns the
    entries of the leaves one by one, in document order. *)
Lemma flatten_exact (d : json) :
  is_dict d = true ->
  forall prefix, NoDup (List.map fst (entries d prefix)) ->
    flatten d prefix = Some (entries d prefix).
Proof.
  revert d. apply (dict_ind (fun d => forall prefix, _ -> _)).
  intros items IH prefix Hnd. rewrite flatten_unfold.
  now rewrite (flatten_loop_exact prefix items IH []).
Qed.

(** X2: for a document whose keys are not empty and have no dot, the
    flattened mapping lists one entry per leaf in document order, the
    dotted path with the [str] of the leaf: this is the order in which the
    replacement loop takes the keys. *)
Theorem flatten_document_order (items : list (string * json)) :
  wf (JDict items) = true ->
  plain_keys (JDict items) = true ->
  flatten (JDict items) ""
  = Some (List.map (fun pl => (dotted (fst pl), PyStr.str (snd pl)))
            (leaves (JDict items))).
Proof.
  intros Hwf Hpl.
  rewrite (flatten_exact (JDict items) eq_refl "" (entries_keys_nodup _ Hwf Hpl)).
  f_equal. unfold entries. apply map_ext_in. intros [p l] Hin. simpl.
  f_equal. eapply plain_path_dotted; eassumption.
Qed.

Lemma flatten_document_order_witness :
  flatten (JDict [("title", JStr "Hi");
                  ("brand", JDict [("primary", JStr "#fff"); ("dark", JBool false)]);
                  ("year", JInt 2024)]) ""
  = Some [("title", "Hi"); ("brand.primary", "#fff"); ("brand.dark", "False");
          ("year", "2024")].
Proof.
  exact (flatten_document_order
           [("title", JStr "Hi");
            ("brand", JDict [("primary", JStr "#fff"); ("dark", JBool false)]);
            ("year", JInt 2024)] eq_refl eq_refl).
Defined.

(** Renaming every key of a dictionary. *)
Definition map_keys {V : Type} (f : string -> string) (d : dict V) : dict V :=
  List.map (fun kv => (f (fst kv), snd kv)) d.

(** The keys of a mapping put under [prefix]. *)
Definition under (prefix : string) (key : string) : string := prefix ++ "." ++ key.

Lemma under_eqb (prefix k k' : string) :
  String.eqb (under prefix k) (under prefix k') = String.eqb k k'.
Proof.
  destruct (String.eqb_spec k k') as [->|Hne]; [apply String.eqb_refl|].
  apply String.eqb_neq. unfold under. intros E.
  apply str_app_inv_head in E. simpl in E. now injection E.
Qed.

Lemma set_under {V : Type} (prefix k : string) (v : V) (d : dict V) :
  Dict.set (under prefix k) v (map_keys (under prefix) d)
  = map_keys (under prefix) (Dict.set k v d).
Proof.
  induction d as [|[k0 v0] d IH]; simpl; [reflexivity|].
  rewrite under_eqb. destruct (String.eqb k0 k); simpl; [reflexivity|].
  now rewrite IH.
Qed.

Lemma update_under {V : Type} (prefix : string) (other d : dict V) :
  Dict.update (map_keys (under prefix) d) (map_keys (under prefix) other)
  = map_keys (under prefix) (Dict.update d other).
Proof.
  unfold Dict.update. revert d.
  induction other as [|[k v] other IH]; intros d; simpl; [reflexivity|].
  now rewrite set_under, IH.
Qed.

Lemma full_key_under (prefix a key : string) :
  a <> "" ->
  full_key (under prefix a) key = under prefix (full_key a key)
  /\ full_key a key <> "".
Proof.
  intros Ha. destruct (full_key_nonempty a key Ha) as [-> Hne].
  split; [|destruct a; [congruence | discriminate]].
  unfold under.
  destruct (full_key_nonempty (prefix ++ "." ++ a) key) as [-> _].
  - destruct prefix; discriminate.
  - now rewrite !str_app_assoc.
Qed.

(** Below the first level, a longer prefix only lengthens the keys. *)
Lemma flatten_under (d : json) :
  forall prefix a, a <> "" ->
    flatten d (under prefix a) = option_map (map_keys (under prefix)) (flatten d a).
Proof.
  induction d as [| | | | | l _ | items IH] using json_nested_ind;
    try (intros; reflexivity).
  intros prefix a Ha. rewrite !flatten_unfold.
  change (@nil (string * string)) with (map_keys (under prefix) (@nil (string * string))) at 1.
  generalize (@nil (string * string)).
  induction IH as [|[key value] rest Hv _ IHrest]; intros result; [reflexivity|].
  simpl in Hv. simpl flatten_loop.
  destruct (full_key_under prefix a key Ha) as [-> Hne].
  destruct (is_dict value).
  - rewrite (Hv prefix _ Hne).
    destruct (flatten value (full_key a key)) as [sub|]; [|reflexivity].
    cbn [option_map]. rewrite update_under. apply IHrest.
  - rewrite set_under. apply IHrest.
Qed.

(** X3: flattening a document under a non-empty prefix gives the mapping
    flattened without prefix, in the same order, with [prefix.] put before
    every key, provided no top-level key is empty. *)
Theorem flatten_with_prefix (items : list (string * json)) (prefix : string) :
  prefix <> "" ->
  (forall key, In key (List.map fst items) -> key <> "") ->
  flatten (JDict items) prefix
  = option_map (map_keys (under prefix)) (flatten (JDict items) "").
Proof.
  intros Hp Hkeys. rewrite !flatten_unfold.
  change (@nil (string * string)) with (map_keys (under prefix) (@nil (string * string))) at 1.
  generalize (@nil (string * string)).
  induction items as [|[key value] rest IH]; intros result; [reflexivity|].
  simpl flatten_loop.
  assert (Hkey : key <> "") by (apply Hkeys; now left).
  assert (Hrest : forall k, In k (List.map fst rest) -> k <> "")
    by (intros k Hk; apply Hkeys; now right).
  destruct (full_key_nonempty prefix key Hp) as [Efk _].
  change (prefix ++ "." ++ key) with (under prefix key) in Efk. rewrite Efk.
  change (full_key "" key) with key.
  destruct (is_dict value).
  - rewrite (flatten_under value prefix key Hkey).
    destruct (flatten value key) as [sub|]; [|reflexivity].
    cbn [option_map]. rewrite update_under. now apply IH.
  - rewrite set_under. now apply IH.
Qed.

Lemma flatten_with_prefix_witness :
  flatten (JDict [("b", JDict [("c", JInt 1)]); ("d", JStr "x")]) "a"
  = Some [("a.b.c", "1"); ("a.d", "x")].
Proof.
  refine (flatten_with_prefix [("b", JDict [("c", JInt 1)]); ("d", JStr "x")] "a" _ _).
  - discriminate.
  - intros key [<-|[<-|[]]]; discriminate.
Defined.

(* ================================================================= *)
(** ** The replacement loop and the scan: further properties *)

(** No two opening braces in a row anywhere in the text. *)
Fixpoint no_open_pair (s : string) : bool :=
  match s with
  | "" => true
  | String _ s' => negb (Str.startswith "{{" s) && no_open_pair s'
  end.

Lemma startswith_token (key s : string) :
  Str.startswith (token key) s = true -> Str.startswith "{{" s = true.
Proof.
  intros H. apply startswith_inv in H as [r ->].
  unfold token. rewrite str_app_assoc. apply startswith_app.
Qed.

Lemma replace_no_open_pair (key value s : string) :
  no_open_pair s = true -> replace (token key) value s = s.
Proof.
  change (replace (token key) value s) with (replace_from (token key) value 0 s).
  induction s as [|c s IH]; [reflexivity|].
  cbn [no_open_pair]. intros H. apply andb_true_iff in H as [Hc Hs].
  apply negb_true_iff in Hc.
  rewrite replace_from_pass; [now rewrite IH|].
  destruct (Str.startswith (token key) (String c s)) eqn:E; [|reflexivity].
  apply startswith_token in E. congruence.
Qed.

(** X4: a text in which no two opening braces stand in a row is left
    unchanged by the replacement loop, whatever the mapping holds (single
    braces, as in style sheets and scripts, are never touched). *)
Theorem substitute_no_open_pair (html : string) (flat : dict string) :
  no_open_pair html = true -> substitute html flat = html.
Proof.
  intros H. unfold substitute.
  induction flat as [|[k v] flat IH]; cbn [fold_left fst snd]; [reflexivity|].
  now rewrite replace_no_open_pair.
Qed.

Lemma substitute_no_open_pair_witness :
  substitute "<style>body { color: red; } a {}}</style>"
    [("body", "X"); (" color: red; ", "Y"); ("", "Z")]
  = "<style>body { color: red; } a {}}</style>".
Proof.
  exact (substitute_no_open_pair "<style>body { color: red; } a {}}</style>"
           [("body", "X"); (" color: red; ", "Y"); ("", "Z")] eq_refl).
Defined.

Lemma tokens_of_lits (v : string) (t : template) :
  tokens_of (lits v ++ t)%list = tokens_of t.
Proof. induction v as [|c v IH]; simpl; [reflexivity | exact IH]. Qed.

Lemma tokens_of_fill (flat : dict string) (t : template) (x : string) :
  In x (tokens_of (fill flat t))
  <-> exists k, x = token k /\ k <> "" /\ In (Tok k) t /\ Dict.get k flat = None.
Proof.
  induction t as [|[c|k] t IH]; cbn [fill tokens_of].
  - split; [intros [] | intros (k & _ & _ & [] & _)].
  - rewrite IH. split.
    + intros (k & -> & Hne & Hin & Hg). exists k. repeat split; try assumption. now right.
    + intros (k & -> & Hne & [Hin|Hin] & Hg); [discriminate|].
      exists k. now repeat split.
  - destruct (Dict.get k flat) as [v|] eqn:Eg.
    + rewrite tokens_of_lits, IH. split.
      * intros (k' & -> & Hne & Hin & Hg). exists k'. repeat split; try assumption. now right.
      * intros (k' & -> & Hne & [[= <-]|Hin] & Hg); [congruence|].
        exists k'. now repeat split.
    + cbn [tokens_of]. destruct (String.eqb_spec k "") as [->|Hk].
      * rewrite IH. split.
        -- intros (k' & -> & Hne & Hin & Hg). exists k'. repeat split; try assumption.
           now right.
        -- intros (k' & -> & Hne & [[= <-]|Hin] & Hg); [congruence|].
           exists k'. now repeat split.
      * simpl. rewrite IH. split.
        -- intros [<-|(k' & -> & Hne & Hin & Hg)].
           ++ exists k. repeat split; try assumption. now left.
           ++ exists k'. repeat split; try assumption. now right.
        -- intros (k' & -> & Hne & [[= <-]|Hin] & Hg); [now left|].
           right. exists k'. now repeat split.
Qed.

(** X5: when every pair of opening braces in the template starts a token
    with a brace-free key, and no key and no value of the mapping has a
    brace, the scan of the page reports a token exactly when the template
    has it, its key is not empty and the mapping has no such key: the
    warning never names a placeholder that the configuration defines. *)
Theorem unresolved_tokens (html : string) (flat : dict string) (t : string) :
  proper (parse html) = true ->
  brace_free_dict flat = true ->
  (In t (findall (substitute html flat))
   <-> exists k,
         t = token k /\ k <> "" /\ In (Tok k) (parse html) /\ Dict.get k flat = None).
Proof.
  intros Hp Hf.
  rewrite (substitute_parse html flat Hp Hf).
  rewrite findall_render by (now apply proper_fill).
  apply tokens_of_fill.
Qed.

Lemma unresolved_tokens_witness :
  In "{{missing}}" (findall (substitute "{{a}} {{missing}} {{}}" [("a", "1")])).
Proof.
  apply (unresolved_tokens "{{a}} {{missing}} {{}}" [("a", "1")] "{{missing}}"
           eq_refl eq_refl).
  exists "missing". repeat split; [discriminate|].
  simpl. tauto.
Defined.

Lemma match_token_prefix (s t : string) :
  match_token s = Some t -> exists r, s = t ++ r.
Proof.
  unfold match_token.
  destruct (Str.startswith "{{" s) eqn:E; [|discriminate].
  apply startswith_inv in E as [r0 ->].
  change (Str.drop 2 ("{{" ++ r0)) with r0. cbv zeta.
  destruct (Nat.ltb 0 (span_not_close r0)
            && Str.startswith "}}" (Str.drop (span_not_close r0) r0)) eqn:E2;
    [|discriminate].
  intros [= <-]. apply andb_true_iff in E2 as [_ E2].
  apply startswith_inv in E2 as [r E2]. exists r.
  change ("{{" ++ r0 = "{{" ++ ((Str.take (span_not_close r0) r0 ++ "}}") ++ r)).
  rewrite str_app_assoc, <- E2, take_drop. reflexivity.
Qed.

Lemma findall_from_occurs (s : string) (skip : nat) (t : string) :
  In t (findall_from skip s) -> exists a b, s = a ++ t ++ b.
Proof.
  revert skip. induction s as [|c s IH]; intros skip; [intros []|].
  assert (Hrest : forall n, In t (findall_from n s) ->
                            exists a b, String c s = a ++ t ++ b).
  { intros n Hin. destruct (IH n Hin) as (a & b & ->). now exists (String c a), b. }
  destruct skip as [|n]; cbn [findall_from]; [|apply Hrest].
  destruct (match_token (String c s)) as [t0|] eqn:E; [|apply Hrest].
  intros [<-|Hin]; [|eapply Hrest, Hin].
  apply match_token_prefix in E as [r E]. now exists "", r.
Qed.

(** X6: every token the scan reports stands in the scanned text. *)
Theorem findall_occurs (s t : string) :
  In t (findall s) -> exists a b, s = a ++ t ++ b.
Proof. apply findall_from_occurs. Qed.

Lemma findall_occurs_witness :
  exists a b, "<b>{{x}}</b>{{y}}" = a ++ "{{y}}" ++ b.
Proof.
  apply (findall_occurs "<b>{{x}}</b>{{y}}" "{{y}}"). simpl. tauto.
Defined.

(** X7: the lines of the warning do not depend on the order in which the
    set of the tokens is listed, and the number in the header is the number
    of the lines that follow it. *)
Theorem warning_lines (remaining listing : list string) :
  NoDup listing ->
  (forall t, In t listing <-> In t remaining) ->
  warning remaining
  = (Str.newline ++ "  Warning: " ++ Str.of_nat (List.length (sorted listing))
       ++ " unreplaced placeholder(s):")
    :: List.map (fun p => "    " ++ p) (sorted listing).
Proof.
  intros Hnd Hin. unfold warning.
  rewrite (sorted_set_order remaining listing Hnd Hin).
  assert (Hlen : forall l, List.length (sorted l) = List.length l).
  { assert (Hins : forall x l, List.length (insert_sorted x l) = S (List.length l)).
    { intros x l. induction l as [|y l IH]; simpl; [reflexivity|].
      destruct (String.leb x y); simpl; [reflexivity | now rewrite IH]. }
    induction l as [|x l IH]; simpl; [reflexivity|]. now rewrite Hins, IH. }
  now rewrite Hlen.
Qed.

Lemma warning_lines_witness :
  warning ["{{b}}"; "{{a}}"; "{{b}}"]
  = [Str.newline ++ "  Warning: 2 unreplaced placeholder(s):"; "    {{a}}"; "    {{b}}"].
Proof.
  refine (warning_lines ["{{b}}"; "{{a}}"; "{{b}}"] ["{{b}}"; "{{a}}"] _ _).
  - repeat constructor; simpl; intuition discriminate.
  - intros t. simpl. tauto.
Defined.

(* ================================================================= *)
(** ** [generate]: what a run leaves alone

    [touches paths c]: the step [c] changes the file system at most at the
    listed paths, and only adds to the console. *)

Definition touches (paths : list string) {A : Type} (c : io A) : Prop :=
  forall w,
    (forall p, ~ In p paths -> fs (snd (c w)) p = fs w p)
    /\ exists tail, stdout (snd (c w)) = (stdout w ++ tail)%list.

Lemma touches_pure (paths : list string) {A : Type} (r : result A) :
  touches paths (fun w => (r, w)).
Proof.
  intros w. simpl. split; [reflexivity|]. exists []. now rewrite app_nil_r.
Qed.

Lemma touches_ret (paths : list string) {A : Type} (a : A) : touches paths (ret a).
Proof. apply touches_pure. Qed.

Lemma touches_raise (paths : list string) {A : Type} (e : exn) :
  touches paths (@raise A e).
Proof. apply touches_pure. Qed.

Lemma touches_sys_exit (paths : list string) {A : Type} (code : Z) :
  touches paths (@sys_exit A code).
Proof. apply touches_pure. Qed.

Lemma touches_stat (paths : list string) (path : string) : touches paths (stat path).
Proof.
  intros w. simpl. split; [reflexivity|]. exists []. now rewrite app_nil_r.
Qed.

Lemma touches_print (paths : list string) (text : string) : touches paths (print text).
Proof. intros w. simpl. split; [reflexivity|]. now exists [text]. Qed.

Lemma touches_put (paths : list string) (path : string) (n : option node) :
  In path paths -> touches paths (put path n).
Proof.
  intros Hin w. simpl. split.
  - intros p Hp. unfold fs_set. destruct (String.eqb_spec p path) as [->|_]; [contradiction|].
    reflexivity.
  - exists []. now rewrite app_nil_r.
Qed.

Lemma touches_bind (paths : list string) {A B : Type} (c : io A) (k : A -> io B) :
  touches paths c -> (forall a, touches paths (k a)) -> touches paths (bind c k).
Proof.
  intros Hc Hk w. unfold bind.
  destruct (Hc w) as (Hfs & [t Hout]).
  destruct (c w) as [[a|s] w1] eqn:E; simpl in *.
  - destruct (Hk a w1) as (Hfs' & [t' Hout']). split.
    + intros p Hp. now rewrite Hfs', Hfs.
    + exists (t ++ t')%list. now rewrite Hout', Hout, app_assoc.
  - split; [assumption | now exists t].
Qed.

Lemma touches_for_each_print (paths : list string) (l : list string) :
  touches paths (for_each l print).
Proof.
  intros w. rewrite for_each_print. simpl. split; [reflexivity | now exists l].
Qed.

Lemma touches_need_dirs (paths dirs : list string) : touches paths (need_dirs dirs).
Proof.
  induction dirs as [|d dirs IH]; cbn [need_dirs]; [apply touches_ret|].
  apply touches_bind; [apply touches_stat|].
  intros [[c|e]|]; [apply touches_raise | exact IH | apply touches_raise].
Qed.

Lemma touches_make_dirs (paths dirs : list string) :
  (forall d, In d dirs -> In d paths) -> touches paths (make_dirs dirs).
Proof.
  induction dirs as [|d dirs IH]; intros H; cbn [make_dirs]; [apply touches_ret|].
  assert (IH' : touches paths (make_dirs dirs)) by (apply IH; intros; apply H; now right).
  apply touches_bind; [apply touches_stat|].
  intros [[c|e]|]; [apply touches_raise | exact IH' |].
  apply touches_bind; [|intros _; exact IH'].
  apply touches_put. apply H. now left.
Qed.

Ltac touches_step :=
  repeat first
    [ apply touches_need_dirs
    | apply touches_make_dirs;
      rewrite ?ancestors_out_dir, ?ancestors_out_path, ?ancestors_audio_dst
        by assumption;
      cbn [In]; tauto
    | apply touches_bind; [|intros ?]
    | apply touches_for_each_print
    | apply touches_print
    | apply touches_put; simpl; tauto
    | apply touches_ret | apply touches_raise | apply touches_sys_exit
    | apply touches_stat
    | match goal with
      | |- touches _ (match ?x with _ => _ end) => destruct x
      | |- touches _ (if ?x then _ else _) => destruct x
      end ].

Section Frame.

Variable json_loads : string -> option json.

Lemma touches_generate (slug : string) :
  Str.contains "/"%char slug = false ->
  touches [clients_dir; out_dir slug; out_path slug; audio_dst slug]
    (generate json_loads slug).
Proof.
  intros Hslug.
  unfold generate, validate_inputs, load_config, json_load, load_template, warn_missed,
    write_output, copy_audio, report_done, path_exists, read_text, write_text,
    makedirs, rmtree, copytree, listdir.
  touches_step.
Qed.

(** A slug that is one path component and not the parent directory: the
    path names that the script builds from it then name six different
    places. *)
Definition simple_slug (slug : string) : bool :=
  negb (Str.contains "/"%char slug) && negb (String.eqb slug "..").

(** X8: whatever the run does and however it ends, the configuration, the
    template and the audio source are afterwards what they were, and the
    console has only grown. *)
Theorem generate_keeps_inputs (slug : string) (w : world) :
  simple_slug slug = true ->
  fs (snd (generate json_loads slug w)) (config_path slug) = fs w (config_path slug)
  /\ fs (snd (generate json_loads slug w)) template_path = fs w template_path
  /\ fs (snd (generate json_loads slug w)) (audio_src slug) = fs w (audio_src slug)
  /\ exists tail,
       stdout (snd (generate json_loads slug w)) = (stdout w ++ tail)%list.
Proof.
  intros Hslug. unfold simple_slug in Hslug.
  apply andb_true_iff in Hslug as [Hslug _]. apply negb_true_iff in Hslug.
  destruct (touches_generate slug Hslug w) as [Hfs Hout].
  repeat split; try exact Hout; apply Hfs;
    unfold config_path, template_path, audio_src, clients_dir, out_dir, out_path,
      audio_dst;
    simpl; intros [H|[H|[H|[H|[]]]]]; discriminate H.
Qed.

(** X9: when both inputs exist but the configuration cannot be loaded (it
    is a directory, its bytes are not UTF-8, its text is not valid JSON, or
    its top level is not an object) or the template cannot be read (it is
    a directory, or its bytes are not UTF-8), the run ends with the
    exception, and nothing has been written or printed. *)
Theorem generate_load_errors (slug : string) (w : world) (n m : node) :
  fs w (config_path slug) = Some n ->
  fs w template_path = Some m ->
  (forall e, n = Dir e ->
     generate json_loads slug w = (Stop (Raised IsADirectoryError), w))
  /\ (forall cbytes, n = File cbytes -> decode_text cbytes = None ->
        generate json_loads slug w = (Stop (Raised UnicodeDecodeError), w))
  /\ (forall cbytes ctext, n = File cbytes -> decode_text cbytes = Some ctext ->
        json_loads ctext = None ->
        generate json_loads slug w = (Stop (Raised JSONDecodeError), w))
  /\ (forall cbytes ctext config, n = File cbytes ->
        decode_text cbytes = Some ctext -> json_loads ctext = Some config ->
        is_dict config = false ->
        generate json_loads slug w = (Stop (Raised AttributeError), w))
  /\ (forall cbytes ctext config e, n = File cbytes ->
        decode_text cbytes = Some ctext -> json_loads ctext = Some config ->
        is_dict config = true -> m = Dir e ->
        generate json_loads slug w = (Stop (Raised IsADirectoryError), w))
  /\ (forall cbytes ctext config tbytes, n = File cbytes ->
        decode_text cbytes = Some ctext -> json_loads ctext = Some config ->
        is_dict config = true -> m = File tbytes -> decode_text tbytes = None ->
        generate json_loads slug w = (Stop (Raised UnicodeDecodeError), w)).
Proof.
  intros Hc Ht.
  assert (Hgen : generate json_loads slug w
                 = bind (load_config json_loads slug)
                     (fun flat =>
                        (html <- load_template ;;
                         let html := substitute html flat in
                         warn_missed html ;;
                         write_output slug html ;;
                         copy_audio slug ;;
                         report_done slug)%io) w).
  { unfold generate. now rewrite (bind_ok _ _ _ _ _ (validate_ok slug w n m Hc Ht)). }
  rewrite Hgen. unfold load_config, json_load.
  repeat split.
  - intros e ->. apply bind_stop.
    unfold bind. now rewrite read_text_run, Hc.
  - intros cbytes -> Hd. apply bind_stop.
    unfold bind. now rewrite read_text_run, Hc, Hd.
  - intros cbytes ctext -> Hd Hj. apply bind_stop.
    unfold bind. now rewrite read_text_run, Hc, Hd, Hj.
  - intros cbytes ctext config -> Hd Hj Hdict. apply bind_stop.
    unfold bind. rewrite read_text_run, Hc, Hd, Hj. cbn [ret].
    destruct config; try discriminate Hdict; reflexivity.
  - intros cbytes ctext config e -> Hd Hj Hdict ->.
    destruct (flatten_get config Hdict "") as (flat & Hf & _).
    unfold bind at 1 2 3. rewrite read_text_run, Hc, Hd, Hj. cbn [ret].
    rewrite Hf. cbn [ret].
    apply bind_stop. unfold load_template. now rewrite read_text_run, Ht.
  - intros cbytes ctext config tbytes -> Hd Hj Hdict -> Hdt.
    destruct (flatten_get config Hdict "") as (flat & Hf & _).
    unfold bind at 1 2 3. rewrite read_text_run, Hc, Hd, Hj. cbn [ret].
    rewrite Hf. cbn [ret].
    apply bind_stop. unfold load_template. now rewrite read_text_run, Ht, Hdt.
Qed.

End Frame.

Lemma generate_keeps_inputs_witness :
  fs (snd (generate demo_loads "acme" demo_world_again)) "configs/acme/audio"
  = Some (Dir [("intro.mp3", File "..."); ("notes.txt", File "...")]).
Proof.
  exact (proj1 (proj2 (proj2 (generate_keeps_inputs demo_loads "acme" demo_world_again
                                eq_refl)))).
Defined.

(** A file system whose configuration for [acme] is not valid JSON. *)
Definition demo_world_bad_json : world :=
  World (fun path =>
           if String.eqb path "configs/acme.json" then Some (File "{oops")
           else demo_fs path)
        [].

Lemma generate_load_errors_witness :
  generate demo_loads "acme" demo_world_bad_json
  = (Stop (Raised JSONDecodeError), demo_world_bad_json).
Proof.
  exact (proj1 (proj2 (proj2 (generate_load_errors demo_loads "acme"
                                demo_world_bad_json
                                (File "{oops") (File "{{x}} {{y}}") eq_refl eq_refl)))
           "{oops" "{oops" eq_refl eq_refl eq_refl).
Defined.

(* ================================================================= *)
(** ** [generate]: the audio directory and the report *)










Section Audio.

Variable json_loads : string -> option json.





End Audio.




(* ================================================================= *)
(** ** The entry point

    [usage] is the module docstring that the script prints when it is not
    given exactly one argument.  The paths of the model are relative to the
    directory of the script, which is where [os.chdir] goes before
    [generate] is called. *)

Definition usage : string :=
  String.concat Str.newline
    ["";
     "Nineteen58 Pitch Deck Generator";
     "================================";
     "Creates a client pitch page from a template + config file.";
     "";
     "Usage:";
     "    python3 generate.py <client-slug>";
     "";
     "Example:";
     "    python3 generate.py old-mutual";
     "    python3 generate.py discovery-health";
     "";
     "Output:";
     "    clients/<slug>/index.html   (the pitch page)";
     "    clients/<slug>/audio/       (copied from configs/<slug>/audio/)";
     "";
     "GitHub Pages URL after pushing:";
     "    https://sebmcintosh.github.io/Pitch-Decks/clients/<slug>/";
     ""].

(** The block under [if __name__ == "__main__"]; [argv] is [sys.argv], the
    name of the script first. *)
Definition main (json_loads : string -> option json) (argv : list string) : io unit :=
  if negb (Nat.eqb (List.length argv) 2) then
    (print usage ;; sys_exit 1)%io
  else
    generate json_loads (nth 1 argv "").

(** [no_exit c]: the step [c] never ends the run with [sys.exit]. *)
Definition no_exit {A : Type} (c : io A) : Prop :=
  forall w code, fst (c w) <> Stop (SysExit code).

Lemma no_exit_bind {A B : Type} (c : io A) (k : A -> io B) :
  no_exit c -> (forall a, no_exit (k a)) -> no_exit (bind c k).
Proof.
  intros Hc Hk w code. unfold bind. specialize (Hc w code).
  destruct (c w) as [[a|s] w1]; simpl in *.
  - apply Hk.
  - intros [= ->]. now apply Hc.
Qed.

Lemma no_exit_ok {A : Type} (f : world -> A) (g : world -> world) :
  no_exit (fun w => (Ok (f w), g w)).
Proof. intros w code. discriminate. Qed.

Lemma no_exit_raise {A : Type} (e : exn) : no_exit (@raise A e).
Proof. intros w code. discriminate. Qed.

Lemma no_exit_for_each_print (l : list string) : no_exit (for_each l print).
Proof. intros w code. rewrite for_each_print. discriminate. Qed.

Lemma no_exit_need_dirs (dirs : list string) : no_exit (need_dirs dirs).
Proof.
  induction dirs as [|d dirs IH]; cbn [need_dirs]; [intros w code; discriminate|].
  apply no_exit_bind; [intros w code; discriminate|].
  intros [[c|e]|]; [apply no_exit_raise | exact IH | apply no_exit_raise].
Qed.

Lemma no_exit_make_dirs (dirs : list string) : no_exit (make_dirs dirs).
Proof.
  induction dirs as [|d dirs IH]; cbn [make_dirs]; [intros w code; discriminate|].
  apply no_exit_bind; [intros w code; discriminate|].
  intros [[c|e]|]; [apply no_exit_raise | exact IH |].
  apply no_exit_bind; [intros w code; discriminate | intros _; exact IH].
Qed.

Ltac no_exit_step :=
  repeat first
    [ apply no_exit_need_dirs
    | apply no_exit_make_dirs
    | apply no_exit_bind; [|intros ?]
    | apply no_exit_for_each_print
    | apply no_exit_raise
    | apply (no_exit_ok (fun _ => _) (fun w => _))
    | match goal with
      | |- no_exit (match ?x with _ => _ end) => destruct x
      | |- no_exit (if ?x then _ else _) => destruct x
      end ].

Section Exit.

Variable json_loads : string -> option json.

(** Everything after the validation of the inputs. *)
Definition after_validation (slug : string) : io unit :=
  (flat <- load_config json_loads slug ;;
   html <- load_template ;;
   let html := substitute html flat in
   warn_missed html ;;
   write_output slug html ;;
   copy_audio slug ;;
   report_done slug)%io.

Lemma no_exit_after_validation (slug : string) : no_exit (after_validation slug).
Proof.
  unfold after_validation, load_config, json_load, load_template, warn_missed,
    write_output, copy_audio, report_done, path_exists, read_text, write_text,
    makedirs, rmtree, copytree, listdir, stat, put, ret, print.
  no_exit_step.
Qed.

(** X12: the script ends with [sys.exit] in three cases only, always with
    status 1 and with the file system as it was: a number of arguments
    other than one (the usage text is printed), a missing configuration,
    and, the configuration being there, a missing template. *)
Theorem main_exits (argv : list string) (w w' : world) (code : Z) :
  main json_loads argv w = (Stop (SysExit code), w') ->
  code = 1%Z
  /\ fs w' = fs w
  /\ ((List.length argv <> 2 /\ stdout w' = (stdout w ++ [usage])%list)
      \/ (List.length argv = 2
          /\ fs w (config_path (nth 1 argv "")) = None
          /\ stdout w' = (stdout w ++ config_not_found (nth 1 argv ""))%list)
      \/ (List.length argv = 2
          /\ fs w (config_path (nth 1 argv "")) <> None
          /\ fs w template_path = None
          /\ stdout w' = (stdout w ++ template_not_found)%list)).
Proof.
  unfold main. destruct (Nat.eqb_spec (List.length argv) 2) as [Hlen|Hlen]; cbn [negb].
  - set (slug := nth 1 argv "").
    destruct (fs w (config_path slug)) as [n|] eqn:Hc.
    + destruct (fs w template_path) as [m|] eqn:Ht.
      * unfold generate. rewrite (bind_ok _ _ _ _ _ (validate_ok slug w n m Hc Ht)).
        intros H. exfalso.
        apply (no_exit_after_validation slug w code).
        unfold after_validation. now rewrite H.
      * unfold generate.
        rewrite (bind_stop _ _ _ _ _ (validate_no_template slug w n Hc Ht)).
        intros [= <- <-]. repeat split. right. right. repeat split; congruence.
    + unfold generate. rewrite (bind_stop _ _ _ _ _ (validate_no_config slug w Hc)).
      intros [= <- <-]. repeat split. right. left. now repeat split.
  - unfold bind, print, sys_exit. intros [= <- <-]. repeat split. left. now split.
Qed.

End Exit.

Lemma main_exits_witness :
  fs (snd (main demo_loads ["generate.py"] demo_world)) = fs demo_world
  /\ stdout (snd (main demo_loads ["generate.py"] demo_world)) = [usage].
Proof.
  destruct (main_exits demo_loads ["generate.py"] demo_world
              (snd (main demo_loads ["generate.py"] demo_world)) 1 eq_refl)
    as (_ & Hfs & [[_ Hout]|[[Hlen _]|[Hlen _]]]).
  - now split.
  - discriminate Hlen.
  - discriminate Hlen.
Defined.


(* ================================================================= *)
(** ** Counting the audio files *)

(** X14: a name is counted as an audio file exactly when it is some text
    followed by [.mp3], letter for letter (in general, [endswith] holds
    exactly of the texts that end with the suffix). *)
Theorem endswith_suffix (suffix name : string) :
  Str.endswith suffix name = true <-> exists stem, name = stem ++ suffix.
Proof.
  unfold Str.endswith. split.
  - intros H. apply andb_true_iff in H as [_ H]. apply String.eqb_eq in H.
    remember (String.length name - String.length suffix) as k.
    exists (Str.take k name). rewrite <- H. now rewrite take_drop.
  - intros [stem ->]. rewrite str_length_app.
    replace (String.length stem + String.length suffix - String.length suffix)
      with (String.length stem) by lia.
    rewrite drop_app, String.eqb_refl, andb_true_r.
    apply Nat.leb_le. lia.
Qed.

Example endswith_mp3 :
  List.filter (Str.endswith ".mp3") ["intro.mp3"; ".mp3"; "a.MP3"; "mp3"; "b.mp3.bak"]
  = ["intro.mp3"; ".mp3"].
Proof. reflexivity. Qed.
